(** * SimNations backend: the economic update job and its HTTP surface

    [server.js] wires an Express application around one background job,
    [EconomicUpdateJob].  This development embeds

    - the job itself (controller, batch executor, status model), whose
      source file [src/infrastructure/jobs/economic-update-job] is not part
      of the sources at hand and is therefore modelled from the
      specification (module [EconomicUpdateJob]);
    - [server.js]: the route handlers, the order in which the layers are
      registered, [startServer] and the process-level handlers
      (module [Server]), written against the job's interface. *)

From Stdlib Require Import List String ZArith Bool Arith Lia.
Import ListNotations.
Local Open Scope string_scope.
Set Warnings "-register-all".

(** ** JSON values, as [res.json] receives them *)

Inductive JSON : Type :=
| JNull
| JBool (b : bool)
| JNum (n : Z)
| JStr (s : string)
| JArr (items : list JSON)
| JObj (fields : list (string * JSON)).

Fixpoint assoc {A : Type} (k : string) (l : list (string * A)) : option A :=
  match l with
  | [] => None
  | (k', v) :: rest => if String.eqb k k' then Some v else assoc k rest
  end.

(** Property access [v.k]; [None] stands for [undefined]. *)
Definition field (k : string) (v : JSON) : option JSON :=
  match v with
  | JObj fs => assoc k fs
  | _ => None
  end.

Definition JNat (n : nat) : JSON := JNum (Z.of_nat n).

Definition JOpt {A : Type} (f : A -> JSON) (o : option A) : JSON :=
  match o with
  | Some a => f a
  | None => JNull
  end.

(** ** The economic update job *)

Module EconomicUpdateJob.

(** *** Data model *)

(** Modelled from the spec: the values of [JobStatus.state]. *)
Inductive JobState : Type := STOPPED | IDLE | RUNNING.

(** Modelled from the spec: the values of [JobStatus.lastRunOutcome]. *)
Inductive RunOutcome : Type := SUCCESS | PARTIAL_FAILURE | FAILURE.

(** Modelled from the spec: the JobStatus snapshot of the missing job
    class (section 3 of the specification). *)
Record JobStatus : Type := mkJobStatus {
  state : JobState;
  lastRunStartedAt : option Z;
  lastRunFinishedAt : option Z;
  lastRunOutcome : option RunOutcome;
  lastRunProcessedCount : nat;
  lastRunFailedCount : nat;
  nextScheduledAt : option Z;
  scheduleExpression : string
}.

(** Modelled from the spec: [FailureDetail{stateId, reason}]. *)
Record FailureDetail : Type := mkFailureDetail {
  stateId : nat;
  reason : string
}.

(** Modelled from the spec: the per-pass record the batch executor builds. *)
Record RunResult : Type := mkRunResult {
  startedAt : Z;
  finishedAt : Z;
  processedCount : nat;
  failedCount : nat;
  failures : list FailureDetail
}.

(** Modelled from the spec: a simulated country, owned by the State
    Repository.  The economic formulas are outside the model: the attributes
    are an opaque bag of named figures. *)
Record SimulatedState : Type := mkSimulatedState {
  identifier : nat;
  attributes : list (string * Z)
}.

(** *** External collaborators *)

(** Modelled from the spec: how [listEligibleStates()] settles. *)
Inductive Fetched : Type :=
| FetchOk (states : list SimulatedState)
| FetchFailed (why : string).

(** Modelled from the spec: the State Repository boundary,
    [listEligibleStates()] and [persist(state)], each of which may fail
    with a RepositoryError.  A value of this record is the behaviour of the
    repository during one pass. *)
Record Repository : Type := mkRepository {
  listEligibleStates : Fetched;
  persist : SimulatedState -> option string
}.

(** Modelled from the spec: everything a pass consults outside the
    controller: the repository, the recomputation step (which may fail on a
    state), the per-pass timeout and the clock.  The timeout is wall-clock
    time in the program; here it is the number of states the pass manages to
    handle before the timer fires, [None] when the timer does not fire
    during the pass. *)
Record PassEnv : Type := mkPassEnv {
  repository : Repository;
  recompute : SimulatedState -> SimulatedState + string;
  deadline : option nat;
  clockStart : Z;
  clockEnd : Z
}.

(** Modelled from the spec: the Schedule Provider, a cron-style expression
    and "the next fire time from now". *)
Record Schedule : Type := mkSchedule {
  expression : string;
  nextFireAfter : Z -> Z
}.

(** *** Batch executor *)

(** Modelled from the spec: one state is recomputed, then persisted; a
    failure of either step is caught and turned into a FailureDetail
    (ItemRecomputeError / ItemPersistError). *)
Definition processState (env : PassEnv) (s : SimulatedState)
  : SimulatedState + FailureDetail :=
  match recompute env s with
  | inr why => inr (mkFailureDetail (identifier s) why)
  | inl s' =>
      match persist (repository env) s' with
      | Some why => inr (mkFailureDetail (identifier s) why)
      | None => inl s'
      end
  end.

(** Modelled from the spec: what a pass has accumulated so far, namely the
    committed writes, the two counters and the ordered failure details. *)
Record Progress : Type := mkProgress {
  written : list SimulatedState;
  doneCount : nat;
  failCount : nat;
  failLog : list FailureDetail
}.

Definition noProgress : Progress := mkProgress [] 0 0 [].

(** Modelled from the spec: one state handled, counted as processed or as
    failed; a failure leaves the pass going. *)
Definition stepItem (env : PassEnv) (p : Progress) (s : SimulatedState)
  : Progress :=
  match processState env s with
  | inl s' =>
      mkProgress (written p ++ [s']) (S (doneCount p)) (failCount p) (failLog p)
  | inr d =>
      mkProgress (written p) (doneCount p) (S (failCount p)) (failLog p ++ [d])
  end.

(** Modelled from the spec: the per-state loop of a pass, in fetch order,
    with per-item isolation; when the timeout fires the states not yet
    handled are abandoned and returned as the second component. *)
Fixpoint processAll (env : PassEnv) (budget : option nat)
    (pending : list SimulatedState) (p : Progress)
  : Progress * list SimulatedState :=
  match pending with
  | [] => (p, [])
  | s :: rest =>
      match budget with
      | Some 0 => (p, pending)
      | Some (S b) => processAll env (Some b) rest (stepItem env p s)
      | None => processAll env None rest (stepItem env p s)
      end
  end.

(** The failure details and the committed writes of a list of states when
    each of them is handled, in order. *)
Definition failuresOf (env : PassEnv) (states : list SimulatedState)
  : list FailureDetail :=
  flat_map (fun s => match processState env s with
                     | inr d => [d]
                     | inl _ => []
                     end) states.

Definition writesOf (env : PassEnv) (states : list SimulatedState)
  : list SimulatedState :=
  flat_map (fun s => match processState env s with
                     | inl s' => [s']
                     | inr _ => []
                     end) states.


(** Modelled from the spec: the pass-level errors of the error taxonomy
    (section 7).  A pass that the timeout cuts short does not return a
    RunResult: it fails with PassTimeout, which carries the partial
    RunResult of the states handled until then. *)
Inductive PassError : Type :=
| RepositoryFetchError (why : string)
| PassTimeout (partial : RunResult).

(** Modelled from the spec: how a pass exits. *)
Inductive PassOutcome : Type :=
| PassOk (r : RunResult)
| PassFailed (e : PassError).

Definition resultOf (env : PassEnv) (p : Progress) : RunResult :=
  mkRunResult (clockStart env) (clockEnd env)
              (doneCount p) (failCount p) (failLog p).

(** Modelled from the spec: the Batch Executor's contract (section 4.2).
    The second component lists the writes the repository committed. *)
Definition executePass (env : PassEnv) : PassOutcome * list SimulatedState :=
  match listEligibleStates (repository env) with
  | FetchFailed why => (PassFailed (RepositoryFetchError why), [])
  | FetchOk states =>
      let '(p, abandoned) := processAll env (deadline env) states noProgress in
      match abandoned with
      | [] => (PassOk (resultOf env p), written p)
      | _ :: _ => (PassFailed (PassTimeout (resultOf env p)), written p)
      end
  end.

(** *** Job controller *)

(** Modelled from the spec: the errors [executeManual()] rejects with.
    [NotInitialized] is the spec's NotInitialized/Stopped. *)
Inductive JobError : Type :=
| NotInitialized
| AlreadyRunning
| PassFailure (e : PassError).

(** Modelled from the spec: what the controller logs. *)
Inductive LogEntry : Type :=
| WarnAlreadyStarted
| AdmissionRefused (e : JobError)
| PassErrorLogged (e : PassError)
| ItemFailuresLogged (details : list FailureDetail).

(** What an asynchronous call settles to. *)
Inductive Settled (A : Type) : Type :=
| Resolved (a : A)
| Rejected (e : JobError).
Arguments Resolved {A} a.
Arguments Rejected {A} e.

(** Modelled from the spec: the Job Controller's internal state.  [status]
    is the current immutable snapshot, replaced as a whole; [armed] tells
    whether the recurring trigger is armed; [inflight] counts the passes
    that were admitted and have not exited yet; [journal] is the log. *)
Record Controller : Type := mkController {
  schedule : Schedule;
  status : JobStatus;
  armed : bool;
  inflight : nat;
  journal : list LogEntry
}.

Definition logEntry (l : LogEntry) (c : Controller) : Controller :=
  mkController (schedule c) (status c) (armed c) (inflight c) (journal c ++ [l]).

(** Modelled from the spec: a freshly constructed controller is STOPPED,
    has never run and has no next fire time. *)
Definition new (sch : Schedule) : Controller :=
  mkController sch
    (mkJobStatus STOPPED None None None 0 0 None (expression sch))
    false 0 [].

(** Modelled from the spec: [getStatus()] hands out the current snapshot. *)
Definition getStatus (c : Controller) : JobStatus := status c.

(** Modelled from the spec: [start()] takes STOPPED to IDLE, arms the
    trigger and stores the next fire time; on a controller that is already
    started it only logs a warning. *)
Definition start (now : Z) (c : Controller) : Controller :=
  let st := status c in
  match state st with
  | STOPPED =>
      mkController (schedule c)
        (mkJobStatus IDLE (lastRunStartedAt st) (lastRunFinishedAt st)
           (lastRunOutcome st) (lastRunProcessedCount st)
           (lastRunFailedCount st)
           (Some (nextFireAfter (schedule c) now)) (scheduleExpression st))
        true (inflight c) (journal c)
  | IDLE | RUNNING => logEntry WarnAlreadyStarted c
  end.

(** Modelled from the spec: [stop()] disarms the trigger and clears the
    next fire time.  It does not abort a pass in flight: RUNNING never goes
    to STOPPED directly, the controller reaches STOPPED when that pass
    exits (see [complete]). *)
Definition stop (c : Controller) : Controller :=
  let st := status c in
  mkController (schedule c)
    (mkJobStatus
       (match state st with RUNNING => RUNNING | IDLE | STOPPED => STOPPED end)
       (lastRunStartedAt st) (lastRunFinishedAt st)
       (lastRunOutcome st) (lastRunProcessedCount st)
       (lastRunFailedCount st) None (scheduleExpression st))
    false (inflight c) (journal c).

(** Modelled from the spec: the admission check-and-transition, one atomic
    step.  Only IDLE admits; the admitted pass is counted in [inflight]
    and its start time is in the snapshot from the first moment on. *)
Definition tryAdmit (now : Z) (c : Controller) : JobError + Controller :=
  let st := status c in
  match state st with
  | RUNNING => inl AlreadyRunning
  | STOPPED => inl NotInitialized
  | IDLE =>
      inr (mkController (schedule c)
             (mkJobStatus RUNNING (Some now) (lastRunFinishedAt st)
                (lastRunOutcome st) (lastRunProcessedCount st)
                (lastRunFailedCount st) (nextScheduledAt st)
                (scheduleExpression st))
             (armed c) (S (inflight c)) (journal c))
  end.

(** Modelled from the spec: the outcome recorded for a pass.  Item failures
    alone never make a pass-level failure. *)
Definition outcomeOf (o : PassOutcome) : RunOutcome :=
  match o with
  | PassOk r =>
      match failedCount r with
      | 0 => SUCCESS
      | S _ => PARTIAL_FAILURE
      end
  | PassFailed _ => FAILURE
  end.

(** Modelled from the spec: the counters recorded for a pass; a pass that
    failed before fetching any state records 0 and 0. *)
Definition countsOf (o : PassOutcome) : nat * nat :=
  match o with
  | PassOk r => (processedCount r, failedCount r)
  | PassFailed (PassTimeout r) => (processedCount r, failedCount r)
  | PassFailed (RepositoryFetchError _) => (0, 0)
  end.

Definition logOf (o : PassOutcome) : list LogEntry :=
  match o with
  | PassOk r =>
      match failures r with
      | [] => []
      | _ :: _ => [ItemFailuresLogged (failures r)]
      end
  | PassFailed e => [PassErrorLogged e]
  end.

(** Modelled from the spec: the exit of the pass in flight.  Whatever the
    outcome, the controller leaves RUNNING (to IDLE, or to STOPPED when
    [stop()] was called meanwhile), folds the outcome into a new snapshot
    and logs a pass-level error. *)
Definition complete (o : PassOutcome) (finished : Z) (c : Controller)
  : Controller :=
  let st := status c in
  mkController (schedule c)
    (mkJobStatus
       (if armed c then IDLE else STOPPED)
       (lastRunStartedAt st) (Some finished) (Some (outcomeOf o))
       (fst (countsOf o)) (snd (countsOf o))
       (if armed c then Some (nextFireAfter (schedule c) finished) else None)
       (scheduleExpression st))
    (armed c) (pred (inflight c)) (journal c ++ logOf o).

(** Modelled from the spec: the scheduled tick handler's admission.  A tick
    that is not admitted is dropped and logged; nothing is queued. *)
Definition tickAdmission (now : Z) (c : Controller) : Controller :=
  match tryAdmit now c with
  | inr c' => c'
  | inl e => logEntry (AdmissionRefused e) c
  end.

(** Modelled from the spec: the scheduled tick handler when the pass it
    starts runs uninterrupted.  It has no caller-facing result and raises
    nothing. *)
Definition scheduledTick (env : PassEnv) (c : Controller)
  : Controller * list SimulatedState :=
  match tryAdmit (clockStart env) c with
  | inl e => (logEntry (AdmissionRefused e) c, [])
  | inr c' =>
      let '(o, w) := executePass env in
      (complete o (clockEnd env) c', w)
  end.

(** Modelled from the spec: [executeManual()], awaited by its caller.  A
    refused admission rejects and leaves the controller as it was; an
    admitted pass resolves to its RunResult or rejects with the pass-level
    error. *)
Definition executeManual (env : PassEnv) (c : Controller)
  : Settled RunResult * Controller * list SimulatedState :=
  match tryAdmit (clockStart env) c with
  | inl e => (Rejected e, c, [])
  | inr c' =>
      let '(o, w) := executePass env in
      (match o with
       | PassOk r => Resolved r
       | PassFailed e => Rejected (PassFailure e)
       end,
       complete o (clockEnd env) c', w)
  end.

(** *** The controller as an event-driven machine

    JavaScript runs each callback to completion, so calls of the tick
    handler and of [executeManual()] interleave at the granularity of the
    admission step and of the exit of a pass. *)

Inductive Event : Type :=
| EvStart (now : Z)
| EvStop
| EvTick (now : Z)
| EvManual (now : Z)
| EvPassExit (o : PassOutcome) (finished : Z).

(** [None]: the event cannot happen in this state (no pass is in flight
    that could exit). *)
Definition step (c : Controller) (ev : Event) : option Controller :=
  match ev with
  | EvStart now => Some (start now c)
  | EvStop => Some (stop c)
  | EvTick now => Some (tickAdmission now c)
  | EvManual now =>
      match tryAdmit now c with
      | inr c' => Some c'
      | inl _ => Some c
      end
  | EvPassExit o finished =>
      match inflight c with
      | 0 => None
      | S _ => Some (complete o finished c)
      end
  end.

Fixpoint run (c : Controller) (evs : list Event) : option Controller :=
  match evs with
  | [] => Some c
  | ev :: rest =>
      match step c ev with
      | Some c' => run c' rest
      | None => None
      end
  end.

(** A pass is in flight exactly when the state is RUNNING, and then it is the
    only one; an IDLE controller has its trigger armed, a STOPPED one has
    not. *)
Definition consistent (c : Controller) : Prop :=
  inflight c = match state (status c) with
               | RUNNING => 1
               | IDLE | STOPPED => 0
               end /\
  match state (status c) with
  | IDLE => armed c = true
  | STOPPED => armed c = false
  | RUNNING => True
  end.

(** *** Serialisation for the HTTP layer *)

(** Modelled from the spec: the [message] of each error, after the names
    of the error taxonomy. *)
Definition errorMessage (e : JobError) : string :=
  match e with
  | NotInitialized => "NotInitialized"
  | AlreadyRunning => "AlreadyRunning"
  | PassFailure (RepositoryFetchError why) => "RepositoryFetchError: " ++ why
  | PassFailure (PassTimeout _) => "PassTimeout"
  end.

Definition stateName (s : JobState) : string :=
  match s with
  | STOPPED => "STOPPED"
  | IDLE => "IDLE"
  | RUNNING => "RUNNING"
  end.

Definition outcomeName (o : RunOutcome) : string :=
  match o with
  | SUCCESS => "SUCCESS"
  | PARTIAL_FAILURE => "PARTIAL_FAILURE"
  | FAILURE => "FAILURE"
  end.

Definition statusJson (st : JobStatus) : JSON :=
  JObj [ ("state", JStr (stateName (state st)));
         ("lastRunStartedAt", JOpt JNum (lastRunStartedAt st));
         ("lastRunFinishedAt", JOpt JNum (lastRunFinishedAt st));
         ("lastRunOutcome",
           JOpt (fun o => JStr (outcomeName o)) (lastRunOutcome st));
         ("lastRunProcessedCount", JNat (lastRunProcessedCount st));
         ("lastRunFailedCount", JNat (lastRunFailedCount st));
         ("nextScheduledAt", JOpt JNum (nextScheduledAt st));
         ("scheduleExpression", JStr (scheduleExpression st)) ].

Definition failureJson (d : FailureDetail) : JSON :=
  JObj [ ("stateId", JNat (stateId d)); ("reason", JStr (reason d)) ].

Definition runResultJson (r : RunResult) : JSON :=
  JObj [ ("startedAt", JNum (startedAt r));
         ("finishedAt", JNum (finishedAt r));
         ("processedCount", JNat (processedCount r));
         ("failedCount", JNat (failedCount r));
         ("failures", JArr (map failureJson (failures r))) ].

End EconomicUpdateJob.

(** ** server.js *)

Module Server.

(** *** What [server.js] uses of the job

    [server.js] only calls [new EconomicUpdateJob()], [start()], [stop()],
    [getStatus()] and [await executeManual()], and prints
    [ECONOMIC_CONSTANTS.JOB_SCHEDULE]; the scheduled callback is fired by the
    timer inside the job.  [W] is the outside world a call consults (clock,
    repository).  [job_executeManual] settles to the resolved value or to
    the [message] of the error it rejects with; [job_onTick] returns the
    error when the scheduled callback lets one escape. *)
Class JobInterface (J W : Type) : Type := {
  JOB_SCHEDULE : string;
  job_new : J;
  job_start : W -> J -> J;
  job_stop : J -> J;
  job_getStatus : J -> JSON;
  job_executeManual : W -> J -> (JSON + string) * J;
  job_onTick : W -> J -> J * option string
}.

(** *** Environment variables *)

Record Env : Type := mkEnv {
  NODE_ENV : option string;
  PORT : option string
}.

(** [process.env.X === lit] *)
Definition envIs (v : option string) (lit : string) : bool :=
  match v with
  | Some s => String.eqb s lit
  | None => false
  end.

(** [process.env.X || dflt]: unset and empty are both falsy. *)
Definition envOr (v : option string) (dflt : string) : string :=
  match v with
  | None => dflt
  | Some EmptyString => dflt
  | Some s => s
  end.

Definition port (env : Env) : string := envOr (PORT env) "3000".

(** *** Requests and responses *)

Inductive Method : Type := GET | HEAD | POST | PUT | DELETE | PATCH | OPTIONS.

Definition methodName (m : Method) : string :=
  match m with
  | GET => "GET" | HEAD => "HEAD" | POST => "POST" | PUT => "PUT"
  | DELETE => "DELETE" | PATCH => "PATCH" | OPTIONS => "OPTIONS"
  end.

(** [path] is [req.path] as it was received; [clock] is what
    [new Date().toISOString()] yields while the request is served. *)
Record Request : Type := mkRequest {
  method : Method;
  path : string;
  ip : string;
  clock : string
}.

Record Response : Type := mkResponse {
  statusCode : nat;
  body : JSON
}.

(** [res.json(v)] and [res.status(n).json(v)] *)
Definition json (v : JSON) : Response := mkResponse 200 v.
Definition answer (n : nat) (v : JSON) : Response := mkResponse n v.

(** *** Process state *)

Inductive Effect : Type :=
| ConsoleLog (line : string)
| ConsoleError (line : string)
| JobConstructed
| JobStartCalled
| JobStopCalled
| Listening (onPort : string)
| Exit (code : Z).

(** [economicJob] is the module-level variable ([null] is [None]);
    [effects] is the trace of what the process did, oldest first;
    [exitCode] is set once [process.exit] ran. *)
Record Process (J : Type) : Type := mkProcess {
  economicJob : option J;
  effects : list Effect;
  listening : bool;
  exitCode : option Z
}.
Arguments mkProcess {J} _ _ _ _.
Arguments economicJob {J} _.
Arguments effects {J} _.
Arguments listening {J} _.
Arguments exitCode {J} _.

Definition initial {J : Type} : Process J := mkProcess None [] false None.

Definition emit {J : Type} (e : Effect) (p : Process J) : Process J :=
  mkProcess (economicJob p) (effects p ++ [e]) (listening p) (exitCode p).

Definition setJob {J : Type} (j : option J) (p : Process J) : Process J :=
  mkProcess j (effects p) (listening p) (exitCode p).

(** [process.exit(code)] *)
Definition exit {J : Type} (code : Z) (p : Process J) : Process J :=
  mkProcess (economicJob p) (effects p ++ [Exit code]) (listening p) (Some code).

(** *** Layers outside this file

    The third-party middleware, the API routers and the error middleware
    are not in [server.js]; their behaviour on a request is a parameter. *)

Inductive ThirdParty : Type :=
| Helmet | Cors | Limiter | JsonParser | UrlencodedParser.

Inductive ApiRouter : Type :=
| AuthRoutes | UserRoutes | QuizRoutes | StateRoutes | PoliticalEventRoutes.

Inductive Verdict : Type :=
| Next
| Respond (r : Response)
| Raise (err : string).

Record Externals : Type := mkExternals {
  thirdParty : ThirdParty -> Request -> Verdict;
  apiRouter : ApiRouter -> Request -> Verdict;
  errorMiddleware : string -> Request -> Response
}.

(** *** The application's stack *)

Inductive Handler : Type := Health | JobStatus | JobExecute.

Inductive Layer : Type :=
| Global (m : ThirdParty)
| RequestLog
| Route (m : Method) (p : string) (h : Handler)
| Mount (prefix : string) (r : ApiRouter)
| ErrorHandler
| NotFound.

Definition executePath : string := "/admin/economic-job/execute".
Definition statusPath : string := "/admin/economic-job/status".

(** The layers in the order [server.js] registers them. *)
Definition app (env : Env) : list Layer :=
  [ Global Helmet; Global Cors; Global Limiter;
    Global JsonParser; Global UrlencodedParser;
    RequestLog;
    Route GET "/health" Health;
    Route GET statusPath JobStatus ]
  ++ (if envIs (NODE_ENV env) "development"
      then [ Route POST executePath JobExecute ]
      else [])
  ++ [ Mount "/api/auth" AuthRoutes;
       Mount "/api/user" UserRoutes;
       Mount "/api/quiz" QuizRoutes;
       Mount "/api/state" StateRoutes;
       Mount "/api/events" PoliticalEventRoutes;
       ErrorHandler;
       NotFound ].

Definition Method_eqb (a b : Method) : bool :=
  match a, b with
  | GET, GET | HEAD, HEAD | POST, POST | PUT, PUT
  | DELETE, DELETE | PATCH, PATCH | OPTIONS, OPTIONS => true
  | _, _ => false
  end.

(** A route registered with [app.get] also answers HEAD. *)
Definition methodMatches (registered requested : Method) : bool :=
  match registered, requested with
  | GET, HEAD => true
  | _, _ => Method_eqb registered requested
  end.

(** Express compares paths without regard to the case of the letters A to
    Z (the routers of [server.js] keep the default settings). *)
Definition lowerAscii (c : Ascii.ascii) : Ascii.ascii :=
  let n := Ascii.nat_of_ascii c in
  if Nat.leb 65 n && Nat.leb n 90 then Ascii.ascii_of_nat (n + 32) else c.

Fixpoint lower (s : string) : string :=
  match s with
  | EmptyString => EmptyString
  | String c rest => String (lowerAscii c) (lower rest)
  end.

(** [app.get(pattern, ...)] and [app.post(pattern, ...)] match the pattern
    itself, with or without one trailing slash, in any letter case. *)
Definition routeMatches (pattern p : string) : bool :=
  String.eqb (lower pattern) (lower p)
  || String.eqb (lower pattern ++ "/") (lower p).

(** [app.use(prefix, ...)] matches the prefix itself and everything below
    it, in any letter case. *)
Definition mountMatches (pre p : string) : bool :=
  String.eqb (lower pre) (lower p)
  || String.prefix (lower pre ++ "/") (lower p).

Arguments routeMatches : simpl never.
Arguments mountMatches : simpl never.

Section Handlers.

Context {J W : Type} {JI : JobInterface J W}.

(** *** Route handlers *)

(** [app.get('/health', ...)] *)
Definition health (env : Env) (req : Request) (p : Process J) : Response :=
  json (JObj
    [ ("success", JBool true);
      ("message", JStr "SimNations Backend está funcionando!");
      ("timestamp", JStr (clock req));
      ("environment", JStr (envOr (NODE_ENV env) "development"));
      ("economic_job_status",
        match economicJob p with
        | Some job => job_getStatus job
        | None => JStr "not_initialized"
        end) ]).

Definition notInitialized : Response :=
  answer 503 (JObj
    [ ("success", JBool false);
      ("message", JStr "Job econômica não inicializada") ]).

(** [app.get('/admin/economic-job/status', ...)] *)
Definition jobStatus (req : Request) (p : Process J) : Response :=
  match economicJob p with
  | None => notInitialized
  | Some job =>
      json (JObj
        [ ("success", JBool true);
          ("data", job_getStatus job);
          ("timestamp", JStr (clock req)) ])
  end.

(** The answer of the [catch] branch of the manual-execution route. *)
Definition executionFailed (message : string) : Response :=
  answer 500 (JObj
    [ ("success", JBool false);
      ("message", JStr "Erro ao executar job manualmente");
      ("error", JStr message) ]).

(** [app.post('/admin/economic-job/execute', async ...)]: the handler
    awaits [executeManual()] and answers once it has settled. *)
Definition jobExecute (w : W) (req : Request) (p : Process J)
  : Response * Process J :=
  match economicJob p with
  | None => (notInitialized, p)
  | Some job =>
      match job_executeManual w job with
      | (inl result, job') =>
          (json (JObj
             [ ("success", JBool true);
               ("data", result);
               ("timestamp", JStr (clock req)) ]),
           setJob (Some job') p)
      | (inr message, job') =>
          (executionFailed message, setJob (Some job') p)
      end
  end.

(** [app.use('*', ...)] *)
Definition notFound (req : Request) : Response :=
  answer 404 (JObj
    [ ("success", JBool false);
      ("message", JStr "Rota não encontrada");
      ("timestamp", JStr (clock req)) ]).

Definition runHandler (env : Env) (w : W) (h : Handler) (req : Request)
    (p : Process J) : Response * Process J :=
  match h with
  | Health => (health env req p, p)
  | JobStatus => (jobStatus req p, p)
  | JobExecute => jobExecute w req p
  end.

(** *** Dispatch *)

(** What Express answers when an error reaches the end of the stack
    without an error handler. *)
Definition finalError (err : string) : Response :=
  mkResponse 500 (JStr err).

(** What Express answers when no layer took the request. *)
Definition finalNotFound (req : Request) : Response :=
  mkResponse 404
    (JStr ("Cannot " ++ methodName (method req) ++ " " ++ path req)).

(** After [next(err)], the layers that are not error handlers are
    skipped. *)
Fixpoint dispatchError (ext : Externals) (err : string) (req : Request)
    (layers : list Layer) : Response :=
  match layers with
  | [] => finalError err
  | ErrorHandler :: _ => errorMiddleware ext err req
  | _ :: rest => dispatchError ext err req rest
  end.

Definition requestLine (req : Request) : string :=
  clock req ++ " - " ++ methodName (method req) ++ " " ++ path req
    ++ " - IP: " ++ ip req.

(** A request walks down the stack until a layer answers it. *)
Fixpoint dispatch (ext : Externals) (env : Env) (w : W) (req : Request)
    (layers : list Layer) (p : Process J) : Response * Process J :=
  match layers with
  | [] => (finalNotFound req, p)
  | Global m :: rest =>
      match thirdParty ext m req with
      | Next => dispatch ext env w req rest p
      | Respond r => (r, p)
      | Raise err => (dispatchError ext err req rest, p)
      end
  | RequestLog :: rest =>
      dispatch ext env w req rest (emit (ConsoleLog (requestLine req)) p)
  | Route m pth h :: rest =>
      if methodMatches m (method req) && routeMatches pth (path req)
      then runHandler env w h req p
      else dispatch ext env w req rest p
  | Mount pre r :: rest =>
      if mountMatches pre (path req)
      then match apiRouter ext r req with
           | Next => dispatch ext env w req rest p
           | Respond resp => (resp, p)
           | Raise err => (dispatchError ext err req rest, p)
           end
      else dispatch ext env w req rest p
  | ErrorHandler :: rest => dispatch ext env w req rest p
  | NotFound :: _ => (notFound req, p)
  end.

Definition serve (ext : Externals) (env : Env) (w : W) (req : Request)
    (p : Process J) : Response * Process J :=
  dispatch ext env w req (app env) p.

(** The third-party middleware registered ahead of the routes all hand
    the request on. *)
Definition reachesRoutes (ext : Externals) (req : Request) : Prop :=
  forall m, thirdParty ext m req = Next.

(** *** Boot and shutdown *)

(** How [await testConnection()] settles. *)
Inductive Connection : Type :=
| Connected (ok : bool)
| ConnectionThrew (err : string).

(** The callback of [app.listen]. *)
Definition listen (env : Env) (p : Process J) : Process J :=
  let p1 :=
    mkProcess (economicJob p)
      (effects p ++
         [ Listening (port env);
           ConsoleLog ("🚀 Servidor rodando na porta " ++ port env);
           ConsoleLog ("🌟 Environment: "
                         ++ envOr (NODE_ENV env) "development");
           ConsoleLog ("📊 Health check: http://localhost:" ++ port env
                         ++ "/health") ])
      true (exitCode p) in
  match economicJob p1 with
  | None => p1
  | Some _ =>
      let p2 := emit (ConsoleLog ("🏛️ Job econômica ativa: " ++ JOB_SCHEDULE))
                  p1 in
      if envIs (NODE_ENV env) "development"
      then emit (ConsoleLog ("🔧 Execução manual: POST http://localhost:"
                               ++ port env ++ executePath)) p2
      else p2
  end.

(** [process.on('uncaughtException', ...)] *)
Definition onUncaughtException (err : string) (p : Process J) : Process J :=
  exit 1 (emit (ConsoleError ("❌ Uncaught Exception: " ++ err)) p).

(** How [app.listen(PORT, callback)] ends: the port is bound and the
    callback runs, or the bind fails (the port is taken, say) and the server
    emits an error that nothing listens for. *)
Inductive Bind : Type :=
| Bound
| BindFailed (err : string).

(** [app.listen(PORT, callback)].  When the bind fails the callback never
    runs and nothing listens; the error of the server has no listener, so it
    is an uncaught exception. *)
Definition appListen (env : Env) (bind : Bind) (p : Process J) : Process J :=
  match bind with
  | Bound => listen env p
  | BindFailed err => onUncaughtException err p
  end.

(** [startServer()], from the moment [await testConnection()] has settled. *)
Definition startServer (env : Env) (w : W) (conn : Connection) (bind : Bind)
    (p : Process J) : Process J :=
  match conn with
  | ConnectionThrew err =>
      exit 1 (emit (ConsoleError ("❌ Erro ao iniciar servidor: " ++ err)) p)
  | Connected false =>
      exit 1
        (emit (ConsoleError "❌ Falha na conexão com o banco de dados") p)
  | Connected true =>
      let p1 :=
        if negb (envIs (NODE_ENV env) "test")
        then emit JobStartCalled
               (emit JobConstructed
                  (setJob (Some (job_start w job_new)) p))
        else p in
      appListen env bind p1
  end.

Inductive Signal : Type := SIGTERM | SIGINT.

Definition signalName (s : Signal) : string :=
  match s with
  | SIGTERM => "SIGTERM"
  | SIGINT => "SIGINT"
  end.

(** [process.on('SIGTERM', ...)] and [process.on('SIGINT', ...)] *)
Definition onSignal (s : Signal) (p : Process J) : Process J :=
  let p1 :=
    emit (ConsoleLog ("🔄 " ++ signalName s
                         ++ " recebido, encerrando servidor..."))
      p in
  let p2 :=
    match economicJob p1 with
    | Some job => emit JobStopCalled (setJob (Some (job_stop job)) p1)
    | None => p1
    end in
  exit 0 p2.

(** [process.on('unhandledRejection', ...)]; [promise] is the rejected
    promise as the console prints it. *)
Definition onUnhandledRejection (promise why : string) (p : Process J)
  : Process J :=
  exit 1
    (emit (ConsoleError ("❌ Unhandled Rejection at: " ++ promise
                           ++ " reason: " ++ why)) p).

(** The promise of an asynchronous callback that rejected with [err], as
    the console prints it. *)
Definition rejected (err : string) : string :=
  "Promise { <rejected> " ++ err ++ " }".

(** The timer inside the job fires its asynchronous callback; an error
    that escapes the callback is an unhandled rejection. *)
Definition onCronTick (w : W) (p : Process J) : Process J :=
  match economicJob p with
  | None => p
  | Some job =>
      match job_onTick w job with
      | (job', None) => setJob (Some job') p
      | (job', Some err) =>
          onUnhandledRejection (rejected err) err (setJob (Some job') p)
      end
  end.

(** *** The process as a whole *)

Inductive ProcessEvent : Type :=
| Http (w : W) (req : Request)
| CronTick (w : W)
| Signalled (s : Signal)
| UncaughtException (err : string)
| UnhandledRejection (promise why : string).

(** Nothing runs once the process has exited; requests are served once
    the server listens. *)
Definition handle (ext : Externals) (env : Env) (p : Process J)
    (ev : ProcessEvent) : Process J * option Response :=
  match exitCode p with
  | Some _ => (p, None)
  | None =>
      match ev with
      | Http w req =>
          if listening p
          then let '(r, p') := serve ext env w req p in (p', Some r)
          else (p, None)
      | CronTick w => (onCronTick w p, None)
      | Signalled s => (onSignal s p, None)
      | UncaughtException err => (onUncaughtException err p, None)
      | UnhandledRejection promise why =>
          (onUnhandledRejection promise why p, None)
      end
  end.

Definition runEvents (ext : Externals) (env : Env)
    (evs : list ProcessEvent) (p : Process J) : Process J :=
  fold_left (fun q ev => fst (handle ext env q ev)) evs p.

(** The module is loaded once.  Its last statement calls [startServer()],
    which suspends at [await testConnection()]: [before] is what happens to
    the process until the connection test settles, [after] what happens from
    then on.  A process that has exited meanwhile does not resume. *)
Definition lifetime (ext : Externals) (env : Env) (w : W)
    (before : list ProcessEvent) (conn : Connection) (bind : Bind)
    (after : list ProcessEvent) : Process J :=
  let p0 := runEvents ext env before initial in
  runEvents ext env after
    match exitCode p0 with
    | None => startServer env w conn bind p0
    | Some _ => p0
    end.

Definition count (e : Effect -> bool) (p : Process J) : nat :=
  List.length (filter e (effects p)).

Definition isJobStart (e : Effect) : bool :=
  match e with JobStartCalled => true | _ => false end.

Definition isJobConstructed (e : Effect) : bool :=
  match e with JobConstructed => true | _ => false end.

(** Between [p] and [p'] the job was neither constructed nor started, and
    the variable [economicJob] did not change between [null] and an object. *)
Definition sameJobCalls (p p' : Process J) : Prop :=
  count isJobConstructed p' = count isJobConstructed p /\
  count isJobStart p' = count isJobStart p /\
  (economicJob p' = None <-> economicJob p = None).

Definition isJobStop (e : Effect) : bool :=
  match e with JobStopCalled => true | _ => false end.

Definition isConsoleLog (e : Effect) : bool :=
  match e with ConsoleLog _ => true | _ => false end.

(** The prefix under which [server.js] mounts each API router. *)
Definition mountOf (r : ApiRouter) : string :=
  match r with
  | AuthRoutes => "/api/auth"
  | UserRoutes => "/api/user"
  | QuizRoutes => "/api/quiz"
  | StateRoutes => "/api/state"
  | PoliticalEventRoutes => "/api/events"
  end.

(** The line the [app.listen] callback prints about the manual route. *)
Definition manualHint (env : Env) : string :=
  "🔧 Execução manual: POST http://localhost:" ++ port env ++ executePath.

End Handlers.

(** *** The job of the specification behind the interface *)

Import EconomicUpdateJob.

Definition settledJson (r : Settled RunResult) : JSON + string :=
  match r with
  | Resolved res => inl (runResultJson res)
  | Rejected e => inr (errorMessage e)
  end.

(** Modelled from the spec: the job class as [server.js] sees it, built on
    the controller above.  [getStatus()] and the resolved RunResult are
    serialised by [res.json]; a rejection is seen through its [message]; the
    scheduled callback lets no error escape. *)
#[export] Instance controllerJob (sch : Schedule)
  : JobInterface Controller PassEnv := {|
  JOB_SCHEDULE := expression sch;
  job_new := new sch;
  job_start := fun w c => start (clockStart w) c;
  job_stop := stop;
  job_getStatus := fun c => EconomicUpdateJob.statusJson (getStatus c);
  job_executeManual := fun w c =>
    let '(r, c', _) := executeManual w c in (settledJson r, c');
  job_onTick := fun w c => (fst (scheduledTick w c), None)
|}.

(** The job of the process, if it has one, is a consistent controller. *)
Definition jobConsistent (p : Process Controller) : Prop :=
  forall c, economicJob p = Some c -> consistent c.

(** The process is still running and its job has recorded the pass-level
    error [e]: the snapshot says FAILURE, the journal holds the error, and
    the controller is back to IDLE with its trigger armed and no pass in
    flight. *)
Definition contained (e : PassError) (p : Process Controller) : Prop :=
  exitCode p = None /\
  exists c,
    economicJob p = Some c /\
    lastRunOutcome (status c) = Some FAILURE /\
    In (PassErrorLogged e) (journal c) /\
    state (status c) = IDLE /\ armed c = true /\ inflight c = 0.

End Server.

(** ** Sample inputs *)

Module Samples.

Import EconomicUpdateJob.
Import Server.

Definition everySixHours : Schedule :=
  mkSchedule "0 */6 * * *" (fun now => (now + 21600000)%Z).

Definition country (n : nat) : SimulatedState :=
  mkSimulatedState n [("gdp", 100%Z)].

Definition fiveStates : list SimulatedState :=
  [country 1; country 2; country 3; country 4; country 5].

(** The recomputation breaks on state #3 and on no other state. *)
Definition thirdBreaks (s : SimulatedState) : SimulatedState + string :=
  if Nat.eqb (identifier s) 3
  then inr "recompute failed"
  else inl (mkSimulatedState (identifier s) [("gdp", 101%Z)]).

Definition healthyRepository : Repository :=
  mkRepository (FetchOk fiveStates) (fun _ => None).

Definition unreachableRepository : Repository :=
  mkRepository (FetchFailed "connection refused") (fun _ => None).

Definition fivePass : PassEnv :=
  mkPassEnv healthyRepository thirdBreaks None 1000 2000.

Definition brokenPass : PassEnv :=
  mkPassEnv unreachableRepository thirdBreaks None 1000 2000.

(** A pass the timer cuts short after two states. *)
Definition shortPass : PassEnv :=
  mkPassEnv healthyRepository thirdBreaks (Some 2) 1000 2000.

(** A controller after [start()], and one with a pass in flight. *)
Definition idleController : Controller := start 0 (new everySixHours).

Definition runningController : Controller := tickAdmission 500 idleController.

Definition production : Env := mkEnv (Some "production") None.
Definition development : Env := mkEnv (Some "development") None.
Definition testing : Env := mkEnv (Some "test") None.

(** Third-party layers that hand every request on. *)
Definition transparent : Externals :=
  mkExternals (fun _ _ => Next) (fun _ _ => Next)
              (fun err _ => mkResponse 500 (JStr err)).

Definition postExecute : Request :=
  mkRequest POST executePath "127.0.0.1" "2025-01-01T00:00:00.000Z".

(** The same route, as Express also matches it. *)
Definition postExecuteVariant : Request :=
  mkRequest POST "/Admin/Economic-Job/EXECUTE/" "127.0.0.1"
            "2025-01-01T00:00:00.000Z".

(** What the rate limiter of [server.js] answers to a client that is over
    its limit: status 429 and the configured message. *)
Definition tooManyRequests : Response :=
  mkResponse 429 (JObj
    [ ("success", JBool false);
      ("message",
        JStr "Muitas tentativas. Tente novamente em alguns minutos.");
      ("timestamp", JStr "2025-01-01T00:00:00.000Z") ]).

(** Third-party layers of which the rate limiter turns the request down. *)
Definition rateLimited : Externals :=
  mkExternals
    (fun m _ => match m with
                | Limiter => Respond tooManyRequests
                | _ => Next
                end)
    (fun _ _ => Next)
    (fun err _ => mkResponse 500 (JStr err)).

End Samples.

(** * Properties *)

Import EconomicUpdateJob.
Import Server.
Local Open Scope list_scope.

(** ** The batch executor *)

Section ExecutorFacts.

Variable env : PassEnv.

Lemma stepItem_spec (p : Progress) (s : SimulatedState) :
  written (stepItem env p s) = written p ++ writesOf env [s] /\
  failLog (stepItem env p s) = failLog p ++ failuresOf env [s] /\
  doneCount (stepItem env p s) = doneCount p + List.length (writesOf env [s]) /\
  failCount (stepItem env p s) = failCount p + List.length (failuresOf env [s]).
Proof.
  unfold stepItem, writesOf, failuresOf; simpl.
  destruct (processState env s) as [s' | d]; simpl;
    rewrite ?app_nil_r; repeat split; lia.
Qed.

Lemma writesOf_app (xs ys : list SimulatedState) :
  writesOf env (xs ++ ys) = writesOf env xs ++ writesOf env ys.
Proof. unfold writesOf. apply flat_map_app. Qed.

Lemma failuresOf_app (xs ys : list SimulatedState) :
  failuresOf env (xs ++ ys) = failuresOf env xs ++ failuresOf env ys.
Proof. unfold failuresOf. apply flat_map_app. Qed.

(** Each state is either written or reported, never both, never neither. *)
Lemma one_entry_per_state (states : list SimulatedState) :
  List.length (writesOf env states) + List.length (failuresOf env states)
  = List.length states.
Proof.
  induction states as [| s rest IH]; simpl; [reflexivity |].
  unfold writesOf, failuresOf in *; simpl.
  rewrite !length_app.
  destruct (processState env s); simpl; lia.
Qed.

(** The loop handles a prefix of the pending states, in order, and leaves the
    rest untouched. *)
Lemma processAll_spec (pending : list SimulatedState) :
  forall (budget : option nat) (p p' : Progress) (rest : list SimulatedState),
    processAll env budget pending p = (p', rest) ->
    exists handled,
      pending = handled ++ rest /\
      written p' = written p ++ writesOf env handled /\
      failLog p' = failLog p ++ failuresOf env handled /\
      doneCount p' = doneCount p + List.length (writesOf env handled) /\
      failCount p' = failCount p + List.length (failuresOf env handled).
Proof.
  induction pending as [| s more IH]; intros budget p p' rest Hrun.
  - simpl in Hrun. inversion Hrun; subst. exists []. simpl.
    rewrite !app_nil_r. repeat split; lia.
  - assert (Hgo : forall b,
               processAll env b more (stepItem env p s) = (p', rest) ->
               exists handled,
                 s :: more = handled ++ rest /\
                 written p' = written p ++ writesOf env handled /\
                 failLog p' = failLog p ++ failuresOf env handled /\
                 doneCount p' = doneCount p + List.length (writesOf env handled) /\
                 failCount p' = failCount p + List.length (failuresOf env handled)).
    { intros b Hb. destruct (IH _ _ _ _ Hb) as (h & Hsplit & Hw & Hf & Hd & Hc).
      destruct (stepItem_spec p s) as (Sw & Sf & Sd & Sc).
      exists (s :: h). rewrite Hsplit.
      change (s :: h) with ([s] ++ h).
      rewrite writesOf_app, failuresOf_app, !length_app.
      rewrite Hw, Hf, Hd, Hc, Sw, Sf, Sd, Sc, <- !app_assoc.
      repeat split; lia. }
    simpl in Hrun. destruct budget as [[| b] |].
    + inversion Hrun; subst. exists []. simpl.
      rewrite !app_nil_r. repeat split; lia.
    + eauto.
    + eauto.
Qed.


(** What [executePass] returns when the fetch succeeded: the pass handled a
    prefix of the fetched states; it returns a RunResult exactly when that
    prefix is everything. *)
Lemma executePass_fetched (states : list SimulatedState) :
  listEligibleStates (repository env) = FetchOk states ->
  exists handled rest,
    states = handled ++ rest /\
    snd (executePass env) = writesOf env handled /\
    let r := mkRunResult (clockStart env) (clockEnd env)
               (List.length (writesOf env handled))
               (List.length (failuresOf env handled))
               (failuresOf env handled) in
    fst (executePass env)
    = match rest with
      | [] => PassOk r
      | _ :: _ => PassFailed (PassTimeout r)
      end.
Proof.
  intros Hfetch. unfold executePass. rewrite Hfetch.
  destruct (processAll env (deadline env) states noProgress) as [p rest] eqn:Hrun.
  destruct (processAll_spec _ _ _ _ _ Hrun) as (h & Hsplit & Hw & Hf & Hd & Hc).
  simpl in Hw, Hf, Hd, Hc.
  exists h, rest. split; [exact Hsplit |].
  unfold resultOf. rewrite Hd, Hc, Hf.
  destruct rest; simpl; auto.
Qed.


End ExecutorFacts.

(** ** Claims about the batch executor *)





(** A pass that the timer cuts short accounts for the states it handled,
    which are fewer than the states fetched. *)
Lemma timeout_partial_counts (env : PassEnv) (states : list SimulatedState)
    (r : RunResult) (w : list SimulatedState) :
  listEligibleStates (repository env) = FetchOk states ->
  executePass env = (PassFailed (PassTimeout r), w) ->
  processedCount r + failedCount r < List.length states /\
  processedCount r = List.length w.
Proof.
  intros Hfetch Hrun.
  destruct (executePass_fetched env states Hfetch)
    as (handled & rest & Hsplit & Hw & Hout).
  rewrite Hrun in Hw, Hout. simpl in Hw, Hout.
  destruct rest as [| x rest]; [discriminate Hout |].
  inversion Hout; subst r; clear Hout. simpl. subst w states.
  rewrite length_app, <- (one_entry_per_state env handled). simpl.
  split; [lia | reflexivity].
Qed.

(** The two ends of "every combination of per-item failures". *)
Lemma none_fails (env : PassEnv) (states : list SimulatedState) :
  (forall s, In s states -> exists s', processState env s = inl s') ->
  failuresOf env states = [] /\
  List.length (writesOf env states) = List.length states.
Proof.
  intros Hok. induction states as [| s rest IH]; [split; reflexivity |].
  destruct IH as [IHf IHw]; [intros x Hx; apply Hok; right; exact Hx |].
  destruct (Hok s) as [s' Hs]; [left; reflexivity |].
  unfold failuresOf, writesOf in *. simpl. rewrite Hs. simpl.
  rewrite IHf, IHw. split; reflexivity.
Qed.

Lemma all_fail (env : PassEnv) (states : list SimulatedState) :
  (forall s, In s states -> exists d, processState env s = inr d) ->
  writesOf env states = [] /\
  List.length (failuresOf env states) = List.length states.
Proof.
  intros Hko. induction states as [| s rest IH]; [split; reflexivity |].
  destruct IH as [IHw IHf]; [intros x Hx; apply Hko; right; exact Hx |].
  destruct (Hko s) as [d Hs]; [left; reflexivity |].
  unfold failuresOf, writesOf in *. simpl. rewrite Hs. simpl.
  rewrite IHw, IHf. split; reflexivity.
Qed.

(** A state fails exactly when its recomputation or its write fails. *)
Lemma processState_fails (env : PassEnv) (s : SimulatedState) (d : FailureDetail) :
  processState env s = inr d <->
  (recompute env s = inr (reason d) \/
   exists s', recompute env s = inl s' /\
              persist (repository env) s' = Some (reason d)) /\
  stateId d = identifier s.
Proof.
  unfold processState. split.
  - destruct (recompute env s) as [s' | why] eqn:Hre.
    + destruct (persist (repository env) s') as [why |] eqn:Hpe;
        intros H; inversion H; subst; simpl; split; eauto.
    + intros H; inversion H; subst; simpl; split; auto.
  - intros [[Hre | (s' & Hre & Hpe)] Hid]; rewrite Hre; [| rewrite Hpe];
      destruct d as [i why]; simpl in *; subst; reflexivity.
Qed.





(** ** Claims about the job controller *)

Lemma new_consistent (sch : Schedule) : consistent (new sch).
Proof. split; reflexivity. Qed.

Lemma tryAdmit_running (now : Z) (c : Controller) :
  state (status c) = RUNNING -> tryAdmit now c = inl AlreadyRunning.
Proof. unfold tryAdmit. intros ->. reflexivity. Qed.

Lemma tryAdmit_stopped (now : Z) (c : Controller) :
  state (status c) = STOPPED -> tryAdmit now c = inl NotInitialized.
Proof. unfold tryAdmit. intros ->. reflexivity. Qed.

Lemma tryAdmit_idle (now : Z) (c : Controller) :
  state (status c) = IDLE ->
  exists c', tryAdmit now c = inr c' /\
             state (status c') = RUNNING /\
             inflight c' = S (inflight c) /\
             armed c' = armed c /\ journal c' = journal c /\
             schedule c' = schedule c /\
             lastRunStartedAt (status c') = Some now.
Proof.
  unfold tryAdmit. intros ->. eexists. split; [reflexivity |].
  simpl. auto 8.
Qed.

Lemma step_consistent (c c' : Controller) (ev : Event) :
  consistent c -> step c ev = Some c' -> consistent c'.
Proof.
  unfold consistent. intros [Hfl Harm] Hstep.
  destruct ev as [now | | now | now | o finished]; simpl in Hstep.
  - inversion Hstep; subst c'; clear Hstep. unfold start.
    destruct (state (status c)) eqn:Hst; simpl; rewrite ?Hst; auto.
  - inversion Hstep; subst c'; clear Hstep. unfold stop. simpl.
    destruct (state (status c)); auto.
  - inversion Hstep; subst c'; clear Hstep. unfold tickAdmission, tryAdmit.
    destruct (state (status c)) eqn:Hst; simpl; rewrite ?Hst; auto;
      try (split; [lia | exact I]).
  - unfold tryAdmit in Hstep.
    destruct (state (status c)) eqn:Hst; inversion Hstep; subst c';
      simpl; rewrite ?Hst; auto; try (split; [lia | exact I]).
  - destruct (inflight c) as [| n] eqn:Hn; [discriminate |].
    inversion Hstep; subst c'; clear Hstep. unfold complete. simpl.
    destruct (state (status c)); try discriminate.
    rewrite Hn. injection Hfl as ->.
    destruct (armed c); auto.
Qed.

Lemma run_consistent (evs : list Event) :
  forall c c', consistent c -> run c evs = Some c' -> consistent c'.
Proof.
  induction evs as [| ev rest IH]; intros c c' Hc Hrun; simpl in Hrun.
  - inversion Hrun; subst; exact Hc.
  - destruct (step c ev) as [c1 |] eqn:Hstep; [| discriminate].
    eapply IH; [| exact Hrun]. eapply step_consistent; eauto.
Qed.

(** C1: along every sequence of [start()], [stop()], scheduled ticks, manual
    calls and pass exits, at most one pass is in flight, and it is in flight
    exactly while the state is RUNNING; in state RUNNING neither a tick nor
    [executeManual()] starts a pass. *)
Theorem at_most_one_pass_running (sch : Schedule) (evs : list Event)
    (c : Controller) :
  run (new sch) evs = Some c ->
  inflight c <= 1 /\
  (inflight c = 1 <-> state (status c) = RUNNING) /\
  (state (status c) = RUNNING ->
   forall now,
     tryAdmit now c = inl AlreadyRunning /\
     step c (EvManual now) = Some c /\
     exists c', step c (EvTick now) = Some c' /\
                inflight c' = inflight c /\
                status c' = status c).
Proof.
  intros Hrun.
  destruct (run_consistent evs _ _ (new_consistent sch) Hrun) as [Hfl _].
  split; [| split].
  - rewrite Hfl. destruct (state (status c)); lia.
  - rewrite Hfl. destruct (state (status c)); split; intros H;
      try reflexivity; try discriminate H.
  - intros Hst now. split; [apply tryAdmit_running; exact Hst |]. split.
    + simpl. rewrite (tryAdmit_running now c Hst). reflexivity.
    + simpl. unfold tickAdmission. rewrite (tryAdmit_running now c Hst).
      eexists. split; [reflexivity |]. simpl. auto.
Qed.

Lemma at_most_one_pass_running_witness :
  exists c,
    run (new Samples.everySixHours)
        [EvStart 0; EvTick 10; EvManual 20; EvTick 30] = Some c /\
    inflight c = 1.
Proof.
  eexists. split; [reflexivity |].
  apply (at_most_one_pass_running Samples.everySixHours
           [EvStart 0; EvTick 10; EvManual 20; EvTick 30] _ eq_refl).
  reflexivity.
Defined.

Lemma complete_failed (e : PassError) (finished : Z) (c : Controller) :
  let c' := complete (PassFailed e) finished c in
  lastRunOutcome (status c') = Some FAILURE /\
  In (PassErrorLogged e) (journal c') /\
  state (status c') = (if armed c then IDLE else STOPPED) /\
  armed c' = armed c /\ inflight c' = pred (inflight c).
Proof.
  simpl. repeat split; auto. apply in_or_app. right. left. reflexivity.
Qed.

(** C5: when fetching the eligible states fails, the pass fails with the
    fetch error and writes nothing; the exit of such a pass records FAILURE
    with both counters at 0, and so do the tick handler and
    [executeManual()] that started it. *)
Theorem fetch_failure_fails_the_pass (env : PassEnv) (why : string)
    (c : Controller) :
  listEligibleStates (repository env) = FetchFailed why ->
  state (status c) = IDLE ->
  executePass env = (PassFailed (RepositoryFetchError why), []) /\
  (forall finished c0,
     let c' := complete (fst (executePass env)) finished c0 in
     lastRunOutcome (status c') = Some FAILURE /\
     lastRunProcessedCount (status c') = 0 /\
     lastRunFailedCount (status c') = 0) /\
  (exists c',
     scheduledTick env c = (c', []) /\
     lastRunOutcome (status c') = Some FAILURE /\
     lastRunProcessedCount (status c') = 0 /\
     lastRunFailedCount (status c') = 0) /\
  (exists c',
     executeManual env c
     = (Rejected (PassFailure (RepositoryFetchError why)), c', []) /\
     lastRunOutcome (status c') = Some FAILURE /\
     lastRunProcessedCount (status c') = 0 /\
     lastRunFailedCount (status c') = 0).
Proof.
  intros Hfetch Hidle.
  assert (Hpass : executePass env = (PassFailed (RepositoryFetchError why), [])).
  { unfold executePass. rewrite Hfetch. reflexivity. }
  destruct (tryAdmit_idle (clockStart env) c Hidle) as (c1 & Hadm & _).
  split; [exact Hpass |]. split; [| split].
  - intros finished c0. rewrite Hpass. simpl. auto.
  - unfold scheduledTick. rewrite Hadm, Hpass. eexists.
    split; [reflexivity |]. simpl. auto.
  - unfold executeManual. rewrite Hadm, Hpass. eexists.
    split; [reflexivity |]. simpl. auto.
Qed.

Lemma fetch_failure_fails_the_pass_witness :
  executePass Samples.brokenPass
  = (PassFailed (RepositoryFetchError "connection refused"), []) /\
  lastRunOutcome (status (fst (scheduledTick Samples.brokenPass
                                 Samples.idleController))) = Some FAILURE.
Proof.
  destruct (fetch_failure_fails_the_pass Samples.brokenPass
              "connection refused" Samples.idleController eq_refl eq_refl)
    as (Hpass & _ & (c1 & Htick & Hout & _) & _).
  split; [exact Hpass |]. rewrite Htick. exact Hout.
Defined.

Lemma setJob_same {J : Type} (p : Process J) (job : J) :
  economicJob p = Some job -> setJob (Some job) p = p.
Proof. destruct p; simpl; intros ->; reflexivity. Qed.

(** C4: [executeManual()] rejects with AlreadyRunning when the state is
    RUNNING and with NotInitialized/Stopped when it is STOPPED; in both cases
    no pass is started, nothing is written and the controller is left
    exactly as it was, so that the run in flight exits into the same state
    as without the call; the route handler turns the rejection into a
    response with status 500, [success: false] and the message of the error
    in [error]. *)
Theorem manual_execution_refused (sch : Schedule) (env : PassEnv)
    (req : Request) (p : Process Controller) (c : Controller) :
  economicJob p = Some c ->
  (state (status c) = RUNNING ->
     executeManual env c = (Rejected AlreadyRunning, c, []) /\
     (forall now o finished,
        run c [EvManual now; EvPassExit o finished]
        = run c [EvPassExit o finished]) /\
     jobExecute (JI := controllerJob sch) env req p
     = (mkResponse 500
          (JObj [ ("success", JBool false);
                  ("message", JStr "Erro ao executar job manualmente");
                  ("error", JStr "AlreadyRunning") ]),
        p)) /\
  (state (status c) = STOPPED ->
     executeManual env c = (Rejected NotInitialized, c, []) /\
     jobExecute (JI := controllerJob sch) env req p
     = (mkResponse 500
          (JObj [ ("success", JBool false);
                  ("message", JStr "Erro ao executar job manualmente");
                  ("error", JStr "NotInitialized") ]),
        p)) /\
  (forall e,
     executeManual env c = (Rejected e, c, []) ->
     let r := fst (jobExecute (JI := controllerJob sch) env req p) in
     statusCode r = 500 /\
     field "success" (body r) = Some (JBool false) /\
     field "error" (body r) = Some (JStr (errorMessage e))).
Proof.
  intros Hjob.
  assert (Hroute : forall e,
             executeManual env c = (Rejected e, c, []) ->
             jobExecute (JI := controllerJob sch) env req p
             = (mkResponse 500
                  (JObj [ ("success", JBool false);
                          ("message", JStr "Erro ao executar job manualmente");
                          ("error", JStr (errorMessage e)) ]),
                p)).
  { intros e He. unfold jobExecute. rewrite Hjob. simpl. rewrite He. simpl.
    rewrite (setJob_same p c Hjob). reflexivity. }
  split; [| split].
  - intros Hst.
    assert (He : executeManual env c = (Rejected AlreadyRunning, c, [])).
    { unfold executeManual. rewrite (tryAdmit_running _ c Hst). reflexivity. }
    split; [exact He | split; [| exact (Hroute _ He)]].
    intros now o finished. simpl. rewrite (tryAdmit_running now c Hst).
    reflexivity.
  - intros Hst.
    assert (He : executeManual env c = (Rejected NotInitialized, c, [])).
    { unfold executeManual. rewrite (tryAdmit_stopped _ c Hst). reflexivity. }
    split; [exact He | exact (Hroute _ He)].
  - intros e He. cbv zeta. rewrite (Hroute e He). simpl.
    repeat split.
Qed.

Lemma manual_execution_refused_witness :
  let p := mkProcess (Some Samples.runningController) [] true None in
  statusCode
    (fst (jobExecute (JI := controllerJob Samples.everySixHours)
            Samples.fivePass Samples.postExecute p))
  = 500 /\
  field "error"
    (body (fst (jobExecute (JI := controllerJob Samples.everySixHours)
                  Samples.fivePass Samples.postExecute p)))
  = Some (JStr "AlreadyRunning").
Proof.
  cbv zeta.
  rewrite (proj2 (proj2 (proj1 (manual_execution_refused
                                  Samples.everySixHours
                                  Samples.fivePass Samples.postExecute
                                  (mkProcess (Some Samples.runningController)
                                     [] true None)
                                  Samples.runningController eq_refl)
                               eq_refl))).
  split; reflexivity.
Defined.

(** An error that escapes the scheduled callback ends the process with
    code 1: this is what the job has to prevent. *)
Lemma escaped_tick_error_exits {J W : Type} {JI : JobInterface J W}
    (w : W) (p : Process J) (job job' : J) (err : string) :
  economicJob p = Some job ->
  job_onTick w job = (job', Some err) ->
  exitCode (onCronTick w p) = Some 1%Z.
Proof.
  intros Hjob Htick. unfold onCronTick. rewrite Hjob, Htick. reflexivity.
Qed.

(** ** Claims about [server.js] *)

Section ServerFacts.

Context {J W : Type} {JI : JobInterface J W}.

Lemma envIs_false (v : option string) (lit : string) :
  v <> Some lit <-> envIs v lit = false.
Proof.
  unfold envIs. destruct v as [s |].
  - rewrite <- Bool.not_true_iff_false, String.eqb_eq.
    split; intros H E; apply H; congruence.
  - split; intros _; [reflexivity | discriminate].
Qed.

(** Past the third-party middleware and the request log, the request meets
    the routes. *)
Lemma serve_reaches_routes (ext : Externals) (env : Env) (w : W)
    (req : Request) (p : Process J) :
  reachesRoutes ext req ->
  serve ext env w req p
  = dispatch ext env w req (skipn 6 (app env))
      (emit (ConsoleLog (requestLine req)) p).
Proof.
  intros Hpass. unfold serve, app. simpl. rewrite !Hpass. reflexivity.
Qed.

(** C7: the body of the health check always has the field
    [economic_job_status]: the output of [getStatus()] when the job exists,
    the string [not_initialized] when it does not.  The handler is a total
    function: it answers 200 in both cases.  A GET of [/health] that the
    third-party middleware hands on is answered by this handler. *)
Theorem health_reports_job_status (ext : Externals) (env : Env) (w : W)
    (req : Request) (p : Process J) :
  (statusCode (health env req p) = 200 /\
   field "economic_job_status" (body (health env req p))
   = Some match economicJob p with
          | Some job => job_getStatus job
          | None => JStr "not_initialized"
          end) /\
  (method req = GET -> path req = "/health"%string ->
   reachesRoutes ext req ->
   fst (serve ext env w req p) = health env req p).
Proof.
  split; [split; reflexivity |].
  intros Hm Hp Hpass. rewrite (serve_reaches_routes ext env w req p Hpass).
  simpl. rewrite Hm, Hp. reflexivity.
Qed.

(** C6: the status route answers 503 with [success: false] while the job has
    not been constructed, and 200 with [success: true] and the output of
    [getStatus()] as [data] once it has.  A GET of the status path that the
    third-party middleware hands on is answered by this handler. *)
Theorem job_status_route (ext : Externals) (env : Env) (w : W)
    (req : Request) (p : Process J) :
  match economicJob p with
  | None =>
      statusCode (jobStatus req p) = 503 /\
      field "success" (body (jobStatus req p)) = Some (JBool false)
  | Some job =>
      statusCode (jobStatus req p) = 200 /\
      field "success" (body (jobStatus req p)) = Some (JBool true) /\
      field "data" (body (jobStatus req p)) = Some (job_getStatus job)
  end /\
  (method req = GET -> path req = statusPath ->
   reachesRoutes ext req ->
   fst (serve ext env w req p) = jobStatus req p).
Proof.
  split.
  - unfold jobStatus. destruct (economicJob p); repeat split.
  - intros Hm Hp Hpass. rewrite (serve_reaches_routes ext env w req p Hpass).
    simpl. rewrite Hm, Hp. reflexivity.
Qed.

(** In development the manual-execution route is registered. *)
Lemma execute_route_in_development (ext : Externals) (env : Env) (w : W)
    (req : Request) (p : Process J) :
  NODE_ENV env = Some "development"%string ->
  method req = POST -> path req = executePath ->
  reachesRoutes ext req ->
  serve ext env w req p
  = jobExecute w req (emit (ConsoleLog (requestLine req)) p).
Proof.
  intros Henv Hm Hp Hpass. rewrite (serve_reaches_routes ext env w req p Hpass).
  unfold app. rewrite Henv. simpl. rewrite Hm, Hp. reflexivity.
Qed.

(** Only the manual-execution handler touches the job. *)
Lemma dispatch_keeps_job (ext : Externals) (env : Env) (w : W)
    (req : Request) (layers : list Layer) :
  (forall m pth, ~ In (Route m pth JobExecute) layers) ->
  forall p,
    economicJob (snd (dispatch ext env w req layers p)) = economicJob p.
Proof.
  induction layers as [| layer rest IH]; intros Hno p; simpl;
    [reflexivity |].
  assert (Hrest : forall m pth, ~ In (Route m pth JobExecute) rest).
  { intros m pth Hin. apply (Hno m pth). right. exact Hin. }
  destruct layer as [m | | m pth h | pre r | |]; simpl.
  - destruct (thirdParty ext m req); simpl; auto.
  - rewrite (IH Hrest). reflexivity.
  - destruct (methodMatches m (method req) && routeMatches pth (path req));
      [| auto].
    destruct h; simpl; try reflexivity.
    exfalso. apply (Hno m pth). left. reflexivity.
  - destruct (mountMatches pre (path req)); [| auto].
    destruct (apiRouter ext r req); simpl; auto.
  - auto.
  - reflexivity.
Qed.

(** A path matches a route when, letter case apart, it is the pattern, with
    or without one trailing slash. *)
Lemma routeMatches_cases (pattern s : string) :
  routeMatches pattern s = true ->
  lower s = lower pattern \/ lower s = (lower pattern ++ "/")%string.
Proof.
  unfold routeMatches. intros H. apply orb_prop in H.
  destruct H as [H | H]; apply String.eqb_eq in H; auto.
Qed.

(** A path that matches the manual-execution route matches no other route
    and lies under no mounted router. *)
Lemma execute_path_elsewhere (s : string) :
  routeMatches executePath s = true ->
  routeMatches "/health" s = false /\
  routeMatches statusPath s = false /\
  forall pre,
    In pre ["/api/auth"; "/api/user"; "/api/quiz"; "/api/state";
            "/api/events"]%string ->
    mountMatches pre s = false.
Proof.
  intros H. apply routeMatches_cases in H.
  unfold routeMatches, mountMatches.
  destruct H as [-> | ->]; (split; [reflexivity | split; [reflexivity |]]);
    intros pre Hin; simpl in Hin;
    repeat (destruct Hin as [<- | Hin]; [reflexivity |]); destruct Hin.
Qed.

(** C10, as the code has it: when NODE_ENV is not [development] the
    manual-execution route is not in the stack, so that no request runs its
    handler and the job is not touched; a request for its path (in any
    letter case, with or without a trailing slash, of any method) that the
    third-party middleware hands on falls through to the catch-all and gets
    404 with [success: false], whether or not the job exists. *)
Theorem execute_route_absent_outside_development (ext : Externals)
    (env : Env) (w : W) (req : Request) (p : Process J) :
  NODE_ENV env <> Some "development"%string ->
  routeMatches executePath (path req) = true ->
  (forall m pth, ~ In (Route m pth JobExecute) (app env)) /\
  economicJob (snd (serve ext env w req p)) = economicJob p /\
  (reachesRoutes ext req ->
   serve ext env w req p
   = (notFound req, emit (ConsoleLog (requestLine req)) p) /\
   statusCode (notFound req) = 404 /\
   field "success" (body (notFound req)) = Some (JBool false)).
Proof.
  intros Henv Hp. apply envIs_false in Henv.
  assert (Hno : forall m pth, ~ In (Route m pth JobExecute) (app env)).
  { intros m pth. unfold app. rewrite Henv. simpl. intuition discriminate. }
  split; [exact Hno |]. split.
  - apply dispatch_keeps_job. exact Hno.
  - intros Hpass. split; [| split; reflexivity].
    destruct (execute_path_elsewhere (path req) Hp) as (Hh & Hs & Hm).
    rewrite (serve_reaches_routes ext env w req p Hpass).
    unfold app. rewrite Henv. simpl. rewrite Hh, Hs, !andb_false_r.
    rewrite !Hm by (simpl; auto 6). reflexivity.
Qed.

(** *** Boot and shutdown *)

Lemma sameJobCalls_refl (p : Process J) : sameJobCalls p p.
Proof. unfold sameJobCalls. tauto. Qed.

Lemma sameJobCalls_trans (p q r : Process J) :
  sameJobCalls p q -> sameJobCalls q r -> sameJobCalls p r.
Proof.
  unfold sameJobCalls. intros (A1 & A2 & A3) (B1 & B2 & B3).
  rewrite B1, B2, B3, A1, A2, A3. tauto.
Qed.

Lemma emit_same (e : Effect) (p : Process J) :
  isJobConstructed e = false -> isJobStart e = false ->
  sameJobCalls p (emit e p).
Proof.
  intros Hc Hs. unfold sameJobCalls, count, emit. simpl.
  rewrite !filter_app. simpl. rewrite Hc, Hs, !app_nil_r. tauto.
Qed.

Lemma exit_same (code : Z) (p : Process J) : sameJobCalls p (exit code p).
Proof.
  unfold sameJobCalls, count, exit. simpl.
  rewrite !filter_app. simpl. rewrite !app_nil_r. tauto.
Qed.

Lemma setJob_same_calls (p : Process J) (job job' : J) :
  economicJob p = Some job -> sameJobCalls p (setJob (Some job') p).
Proof.
  intros Hjob. unfold sameJobCalls, count, setJob. simpl. rewrite Hjob.
  repeat split; intros H; discriminate H.
Qed.

Lemma jobExecute_same (w : W) (req : Request) (p : Process J) :
  sameJobCalls p (snd (jobExecute w req p)).
Proof.
  unfold jobExecute. destruct (economicJob p) as [job |] eqn:Hjob.
  - destruct (job_executeManual w job) as [[result | message] job']; simpl;
      eapply setJob_same_calls; exact Hjob.
  - apply sameJobCalls_refl.
Qed.

Create HintDb lifecycle.
#[local] Hint Resolve sameJobCalls_refl jobExecute_same exit_same : lifecycle.

(** The shape of the two error handlers: log, then [process.exit]. *)
Ltac log_then_exit :=
  eapply sameJobCalls_trans; [| apply exit_same];
  apply emit_same; reflexivity.

Lemma dispatch_same (ext : Externals) (env : Env) (w : W) (req : Request)
    (layers : list Layer) :
  forall p, sameJobCalls p (snd (dispatch ext env w req layers p)).
Proof.
  induction layers as [| layer rest IH]; intros p; simpl.
  - apply sameJobCalls_refl.
  - destruct layer as [m | | m pth h | pre r | |]; simpl.
    + destruct (thirdParty ext m req); simpl; auto with lifecycle.
    + eapply sameJobCalls_trans; [| apply IH].
      apply emit_same; reflexivity.
    + destruct (methodMatches m (method req) && routeMatches pth (path req));
        [| apply IH].
      destruct h; simpl; auto with lifecycle.
    + destruct (mountMatches pre (path req)); [| apply IH].
      destruct (apiRouter ext r req); simpl; auto with lifecycle.
    + apply IH.
    + apply sameJobCalls_refl.
Qed.

Lemma onSignal_same (s : Signal) (p : Process J) :
  sameJobCalls p (onSignal s p).
Proof.
  unfold onSignal. cbv zeta.
  set (p1 := emit _ p).
  assert (H1 : sameJobCalls p p1) by (apply emit_same; reflexivity).
  eapply sameJobCalls_trans; [| apply exit_same].
  eapply sameJobCalls_trans; [exact H1 |].
  destruct (economicJob p1) as [job |] eqn:Hjob.
  - eapply sameJobCalls_trans;
      [eapply setJob_same_calls; exact Hjob | apply emit_same; reflexivity].
  - apply sameJobCalls_refl.
Qed.

Lemma onUnhandledRejection_same (promise why : string) (p : Process J) :
  sameJobCalls p (onUnhandledRejection promise why p).
Proof. unfold onUnhandledRejection. log_then_exit. Qed.

Lemma handle_same (ext : Externals) (env : Env) (p : Process J)
    (ev : ProcessEvent) :
  sameJobCalls p (fst (handle ext env p ev)).
Proof.
  unfold handle. destruct (exitCode p); [apply sameJobCalls_refl |].
  destruct ev as [w req | w | s | err | promise why]; simpl.
  - destruct (listening p); [| apply sameJobCalls_refl].
    pose proof (dispatch_same ext env w req (app env) p) as H.
    unfold serve. destruct (dispatch ext env w req (app env) p). exact H.
  - unfold onCronTick. destruct (economicJob p) as [job |] eqn:Hjob;
      [| apply sameJobCalls_refl].
    destruct (job_onTick w job) as [job' [err |]].
    + eapply sameJobCalls_trans;
        [eapply setJob_same_calls; exact Hjob
        | apply onUnhandledRejection_same].
    + eapply setJob_same_calls; exact Hjob.
  - apply onSignal_same.
  - unfold onUncaughtException. log_then_exit.
  - apply onUnhandledRejection_same.
Qed.

Lemma events_same (ext : Externals) (env : Env) (evs : list ProcessEvent) :
  forall p, sameJobCalls p (runEvents ext env evs p).
Proof.
  unfold runEvents. induction evs as [| ev rest IH]; intros p; simpl.
  - apply sameJobCalls_refl.
  - eapply sameJobCalls_trans; [apply handle_same | apply IH].
Qed.

Lemma listen_same (env : Env) (p : Process J) : sameJobCalls p (listen env p).
Proof.
  unfold listen. simpl.
  assert (H : sameJobCalls p
            (mkProcess (economicJob p)
               (effects p ++
                  [ Listening (port env);
                    ConsoleLog ("🚀 Servidor rodando na porta " ++ port env);
                    ConsoleLog ("🌟 Environment: "
                                  ++ envOr (NODE_ENV env) "development");
                    ConsoleLog ("📊 Health check: http://localhost:"
                                  ++ port env ++ "/health") ])
               true (exitCode p))).
  { unfold sameJobCalls, count. simpl. rewrite !filter_app. simpl.
    rewrite !app_nil_r. tauto. }
  destruct (economicJob p); [| exact H].
  destruct (envIs (NODE_ENV env) "development");
    repeat (eapply sameJobCalls_trans; [| apply emit_same; reflexivity]);
    exact H.
Qed.

(** Once the process has exited, nothing happens to it any more. *)
Lemma exited_stays (ext : Externals) (env : Env) (evs : list ProcessEvent) :
  forall (p : Process J) (code : Z),
    exitCode p = Some code ->
    runEvents ext env evs p = p.
Proof.
  unfold runEvents.
  induction evs as [| ev rest IH]; intros p code Hexit; simpl;
    [reflexivity |].
  unfold handle at 2. rewrite Hexit. simpl. eapply IH. exact Hexit.
Qed.

(** What [startServer()] does to the job once the connection test has
    settled. *)
Lemma appListen_same (env : Env) (bind : Bind) (p : Process J) :
  sameJobCalls p (appListen env bind p).
Proof.
  destruct bind; simpl; [apply listen_same |].
  unfold onUncaughtException. log_then_exit.
Qed.

Lemma startServer_calls (env : Env) (w : W) (conn : Connection) (bind : Bind)
    (p : Process J) :
  let p' := startServer env w conn bind p in
  match conn with
  | Connected true =>
      if envIs (NODE_ENV env) "test"
      then sameJobCalls p p'
      else economicJob p' <> None /\
           count isJobConstructed p' = S (count isJobConstructed p) /\
           count isJobStart p' = S (count isJobStart p)
  | Connected false | ConnectionThrew _ =>
      sameJobCalls p p' /\ exitCode p' = Some 1%Z
  end.
Proof.
  unfold startServer.
  destruct conn as [[|] | err]; simpl.
  - destruct (envIs (NODE_ENV env) "test"); simpl; [apply appListen_same |].
    match goal with
    | |- context [appListen env bind ?q] =>
        destruct (appListen_same env bind q) as (Hc & Hs & Hj)
    end.
    rewrite Hc, Hs. split; [| split].
    + intros Hnone. apply Hj in Hnone. discriminate Hnone.
    + unfold count. simpl. rewrite !filter_app, !length_app. simpl. lia.
    + unfold count. simpl. rewrite !filter_app, !length_app. simpl. lia.
  - split; [log_then_exit | reflexivity].
  - split; [log_then_exit | reflexivity].
Qed.

Lemma initial_calls :
  economicJob (@initial J) = None /\
  count isJobConstructed (@initial J) = 0 /\
  count isJobStart (@initial J) = 0.
Proof. repeat split. Qed.

(** C8, as the code has it: when the connection test succeeds (and the
    process is still running by then), the job is constructed once and
    [start()] is called once in the whole life of the process, unless
    NODE_ENV is [test], in which case the job is never constructed; when the
    connection test fails or throws, the process exits with code 1 and the
    job is never constructed; on SIGTERM and on SIGINT, [stop()] is called
    on the job, if there is one, and then the process exits with code 0. *)
Theorem job_follows_process_lifecycle (ext : Externals) (env : Env) (w : W) :
  (forall before bind after,
     exitCode (runEvents ext env before initial) = None ->
     let p := lifetime ext env w before (Connected true) bind after in
     if envIs (NODE_ENV env) "test"
     then economicJob p = None /\
          count isJobConstructed p = 0 /\ count isJobStart p = 0
     else economicJob p <> None /\
          count isJobConstructed p = 1 /\ count isJobStart p = 1) /\
  (forall before conn bind after,
     conn <> Connected true ->
     let p := lifetime ext env w before conn bind after in
     (exitCode (runEvents ext env before initial) = None ->
      exitCode p = Some 1%Z) /\
     exitCode p <> None /\ economicJob p = None /\
     count isJobConstructed p = 0 /\ count isJobStart p = 0) /\
  (forall s (p : Process J),
     exitCode p = None ->
     let p' := fst (handle ext env p (Signalled s)) in
     exitCode p' = Some 0%Z /\
     match economicJob p with
     | Some job =>
         economicJob p' = Some (job_stop job) /\
         effects p'
         = effects p
           ++ [ ConsoleLog ("🔄 " ++ signalName s
                              ++ " recebido, encerrando servidor...");
                JobStopCalled;
                Exit 0 ]
     | None =>
         economicJob p' = None /\
         effects p'
         = effects p
           ++ [ ConsoleLog ("🔄 " ++ signalName s
                              ++ " recebido, encerrando servidor...");
                Exit 0 ]
     end).
Proof.
  split; [| split].
  - intros before bind after Halive p. subst p. unfold lifetime.
    rewrite Halive.
    destruct (events_same ext env before initial) as (Bc & Bs & Bj).
    destruct initial_calls as (Ij & Ic & Is).
    pose proof (startServer_calls env w (Connected true) bind
                  (runEvents ext env before initial)) as Hboot.
    destruct (events_same ext env after
                (startServer env w (Connected true) bind
                   (runEvents ext env before initial))) as (Ac & As & Aj).
    cbv beta iota zeta in Hboot. rewrite Ac, As. revert Hboot.
    destruct (envIs (NODE_ENV env) "test").
    + intros (Hc & Hs & Hj). rewrite Hc, Hs, Bc, Bs.
      split; [apply Aj, Hj, Bj; exact Ij | auto].
    + intros (Hj & Hc & Hs). rewrite Hc, Hs, Bc, Bs, Ic, Is.
      split; [intros Hnone; apply Hj, Aj; exact Hnone | auto].
  - intros before conn bind after Hconn p. subst p. unfold lifetime.
    destruct (events_same ext env before initial) as (Bc & Bs & Bj).
    destruct initial_calls as (Ij & Ic & Is).
    destruct (exitCode (runEvents ext env before initial)) as [code |] eqn:Hexit.
    + rewrite (exited_stays ext env after _ code Hexit).
      rewrite Hexit, Bc, Bs.
      split; [discriminate |].
      split; [discriminate | split; [apply Bj; exact Ij | auto]].
    + pose proof (startServer_calls env w conn bind
                    (runEvents ext env before initial)) as Hboot.
      assert (Hdown : sameJobCalls (runEvents ext env before initial)
                        (startServer env w conn bind
                           (runEvents ext env before initial)) /\
                      exitCode (startServer env w conn bind
                                  (runEvents ext env before initial))
                      = Some 1%Z).
      { destruct conn as [[|] | err]; [congruence | exact Hboot | exact Hboot]. }
      destruct Hdown as ((Hc & Hs & Hj) & Hone).
      rewrite (exited_stays ext env after _ 1%Z Hone).
      rewrite Hone, Hc, Hs, Bc, Bs.
      split; [reflexivity |].
      split; [discriminate | split; [apply Hj, Bj; exact Ij | auto]].
  - intros s p Halive p'. subst p'. unfold handle. rewrite Halive. simpl.
    unfold onSignal. simpl.
    destruct (economicJob p) as [job |] eqn:Hjob; simpl;
      rewrite <- ?app_assoc; simpl; auto.
Qed.

End ServerFacts.

(** ** The claims about [server.js] on the job of the specification *)

Lemma health_reports_job_status_witness :
  fst (serve (JI := controllerJob Samples.everySixHours)
         Samples.transparent Samples.production Samples.fivePass
         (mkRequest GET "/health" "127.0.0.1" "2025-01-01T00:00:00.000Z")
         (mkProcess None [] true None))
  = health (JI := controllerJob Samples.everySixHours) Samples.production
      (mkRequest GET "/health" "127.0.0.1" "2025-01-01T00:00:00.000Z")
      (mkProcess None [] true None).
Proof.
  apply (health_reports_job_status (JI := controllerJob Samples.everySixHours)
           Samples.transparent Samples.production Samples.fivePass
           (mkRequest GET "/health" "127.0.0.1" "2025-01-01T00:00:00.000Z")
           (mkProcess None [] true None));
    [reflexivity | reflexivity | intros m; reflexivity].
Defined.

Lemma job_status_route_witness :
  fst (serve (JI := controllerJob Samples.everySixHours)
         Samples.transparent Samples.production Samples.fivePass
         (mkRequest GET statusPath "127.0.0.1" "2025-01-01T00:00:00.000Z")
         (mkProcess None [] true None))
  = notInitialized.
Proof.
  apply (job_status_route (JI := controllerJob Samples.everySixHours)
           Samples.transparent Samples.production Samples.fivePass
           (mkRequest GET statusPath "127.0.0.1" "2025-01-01T00:00:00.000Z")
           (mkProcess None [] true None));
    [reflexivity | reflexivity | intros m; reflexivity].
Defined.

Lemma execute_route_absent_outside_development_witness :
  fst (serve (JI := controllerJob Samples.everySixHours)
         Samples.transparent Samples.production Samples.fivePass
         Samples.postExecuteVariant
         (mkProcess (Some Samples.idleController) [] true None))
  = notFound Samples.postExecuteVariant.
Proof.
  destruct (execute_route_absent_outside_development
              (JI := controllerJob Samples.everySixHours)
              Samples.transparent Samples.production Samples.fivePass
              Samples.postExecuteVariant
              (mkProcess (Some Samples.idleController) [] true None))
    as (_ & _ & Hserve).
  - discriminate.
  - reflexivity.
  - destruct Hserve as (Hserve & _); [intros m; reflexivity |].
    rewrite Hserve. reflexivity.
Defined.

(** C10 as stated fails: outside development, a request for the path that
    the rate limiter turns down is answered 429 by the limiter, not 404 by
    the catch-all. *)
Lemma rate_limited_request_is_not_answered_404 :
  NODE_ENV Samples.production <> Some "development"%string /\
  path Samples.postExecute = executePath /\
  fst (serve (JI := controllerJob Samples.everySixHours)
         Samples.rateLimited Samples.production Samples.fivePass
         Samples.postExecute
         (mkProcess (Some Samples.idleController) [] true None))
  = Samples.tooManyRequests /\
  statusCode Samples.tooManyRequests = 429.
Proof.
  split; [discriminate |]. repeat split.
Qed.

(** In development the same request reaches the handler and starts a pass. *)
Example execute_route_in_development_sample :
  statusCode
    (fst (serve (JI := controllerJob Samples.everySixHours)
            Samples.transparent Samples.development Samples.fivePass
            Samples.postExecute
            (mkProcess (Some Samples.idleController) [] true None)))
  = 200.
Proof. reflexivity. Qed.

Lemma job_follows_process_lifecycle_witness :
  count isJobStart
    (lifetime (JI := controllerJob Samples.everySixHours)
       Samples.transparent Samples.production Samples.fivePass
       [ CronTick Samples.fivePass ]
       (Connected true) Bound
       [ CronTick Samples.fivePass;
         Http Samples.fivePass Samples.postExecute;
         Signalled SIGTERM ])
  = 1.
Proof.
  exact (proj2 (proj2 (proj1 (job_follows_process_lifecycle
                                (JI := controllerJob Samples.everySixHours)
                                Samples.transparent Samples.production
                                Samples.fivePass)
                             [ CronTick Samples.fivePass ] Bound
                             [ CronTick Samples.fivePass;
                               Http Samples.fivePass Samples.postExecute;
                               Signalled SIGTERM ]
                             eq_refl))).
Defined.

(** C8 as stated fails: outside the test configuration, with the database
    unreachable, the process boots, exits with code 1 and never constructs
    the job. *)
Lemma job_not_constructed_when_database_is_down :
  let p := lifetime (JI := controllerJob Samples.everySixHours)
             Samples.transparent Samples.production Samples.fivePass
             [] (Connected false) Bound [] in
  NODE_ENV Samples.production <> Some "test"%string /\
  economicJob p = None /\
  count isJobConstructed p = 0 /\
  count isJobStart p = 0 /\
  exitCode p = Some 1%Z.
Proof.
  simpl. split; [discriminate |]. repeat split.
Qed.

(** A pass that the timer cuts short fails with PassTimeout and keeps what
    was handled until then. *)
Example timeout_sample :
  executePass Samples.shortPass
  = (PassFailed (PassTimeout (mkRunResult 1000 2000 2 0 [])),
     [ mkSimulatedState 1 [("gdp"%string, 101%Z)];
       mkSimulatedState 2 [("gdp"%string, 101%Z)] ]).
Proof. reflexivity. Qed.

(** ** The process running the job of the specification *)

Lemma start_consistent (now : Z) (c : Controller) :
  consistent c -> consistent (start now c).
Proof. intros Hc. apply (step_consistent c _ (EvStart now) Hc eq_refl). Qed.

Lemma stop_consistent (c : Controller) : consistent c -> consistent (stop c).
Proof. intros Hc. apply (step_consistent c _ EvStop Hc eq_refl). Qed.

Lemma pass_consistent (now finished : Z) (o : PassOutcome)
    (c c1 : Controller) :
  consistent c -> tryAdmit now c = inr c1 ->
  consistent (complete o finished c1).
Proof.
  intros Hc Hadm.
  assert (Hc1 : consistent c1).
  { apply (step_consistent c c1 (EvManual now) Hc). simpl. rewrite Hadm.
    reflexivity. }
  assert (Hfl : exists n, inflight c1 = S n).
  { unfold tryAdmit in Hadm. destruct (state (status c));
      inversion Hadm; subst c1; simpl; eauto. }
  destruct Hfl as [n Hn].
  apply (step_consistent c1 _ (EvPassExit o finished) Hc1).
  simpl. rewrite Hn. reflexivity.
Qed.

Lemma scheduledTick_consistent (w : PassEnv) (c : Controller) :
  consistent c -> consistent (fst (scheduledTick w c)).
Proof.
  intros Hc. unfold scheduledTick.
  destruct (tryAdmit (clockStart w) c) as [e | c1] eqn:Hadm; simpl.
  - apply (step_consistent c _ (EvTick (clockStart w)) Hc). simpl.
    unfold tickAdmission. rewrite Hadm. reflexivity.
  - destruct (executePass w) as [o ws]. simpl.
    eapply pass_consistent; eauto.
Qed.

Lemma executeManual_consistent (w : PassEnv) (c : Controller) :
  consistent c -> consistent (snd (fst (executeManual w c))).
Proof.
  intros Hc. unfold executeManual.
  destruct (tryAdmit (clockStart w) c) as [e | c1] eqn:Hadm; simpl.
  - exact Hc.
  - destruct (executePass w) as [o ws]. simpl.
    eapply pass_consistent; eauto.
Qed.

Section ProcessWithController.

Variable sch : Schedule.
Variable ext : Externals.
Variable env : Env.

Lemma setJob_consistent (p : Process Controller) (c : Controller) :
  consistent c -> jobConsistent (setJob (Some c) p).
Proof. intros Hc c' Hjob. simpl in Hjob. congruence. Qed.

Lemma emit_consistent (e : Effect) (p : Process Controller) :
  jobConsistent p -> jobConsistent (emit e p).
Proof. intros Hp c Hjob. apply Hp. exact Hjob. Qed.

Lemma exit_consistent (code : Z) (p : Process Controller) :
  jobConsistent p -> jobConsistent (exit code p).
Proof. intros Hp c Hjob. apply Hp. exact Hjob. Qed.

Lemma jobExecute_consistent (w : PassEnv) (req : Request)
    (p : Process Controller) :
  jobConsistent p ->
  jobConsistent (snd (jobExecute (JI := controllerJob sch) w req p)).
Proof.
  intros Hp. unfold jobExecute.
  destruct (economicJob p) as [c |] eqn:Hjob; [| exact Hp].
  pose proof (executeManual_consistent w c (Hp c Hjob)) as Hc.
  simpl. destruct (executeManual w c) as [[r c'] ws]. simpl in Hc.
  destruct r; simpl; apply setJob_consistent; exact Hc.
Qed.

Lemma dispatch_consistent (w : PassEnv) (req : Request)
    (layers : list Layer) :
  forall p,
    jobConsistent p ->
    jobConsistent
      (snd (dispatch (JI := controllerJob sch) ext env w req layers p)).
Proof.
  induction layers as [| layer rest IH]; intros p Hp; simpl; [exact Hp |].
  destruct layer as [m | | m pth h | pre r | |]; simpl.
  - destruct (thirdParty ext m req); simpl; auto.
  - apply IH. apply emit_consistent. exact Hp.
  - destruct (methodMatches m (method req) && routeMatches pth (path req));
      [| auto].
    destruct h; simpl; auto using jobExecute_consistent.
  - destruct (mountMatches pre (path req)); [| auto].
    destruct (apiRouter ext r req); simpl; auto.
  - auto.
  - exact Hp.
Qed.

Lemma handle_consistent (p : Process Controller) (ev : ProcessEvent) :
  jobConsistent p ->
  jobConsistent (fst (handle (JI := controllerJob sch) ext env p ev)).
Proof.
  intros Hp. unfold handle. destruct (exitCode p); [exact Hp |].
  destruct ev as [w req | w | s | err | promise why]; simpl.
  - destruct (listening p); [| exact Hp].
    pose proof (dispatch_consistent w req (app env) p Hp) as H.
    unfold serve.
    destruct (dispatch (JI := controllerJob sch) ext env w req (app env) p).
    exact H.
  - unfold onCronTick. destruct (economicJob p) as [c |] eqn:Hjob;
      [| exact Hp].
    simpl. apply setJob_consistent. apply scheduledTick_consistent. auto.
  - unfold onSignal. cbv zeta. apply exit_consistent. simpl.
    destruct (economicJob p) as [c |] eqn:Hjob.
    + apply emit_consistent, setJob_consistent, stop_consistent. auto.
    + intros c Hc. simpl in Hc. rewrite Hjob in Hc. discriminate Hc.
  - apply exit_consistent, emit_consistent. exact Hp.
  - apply exit_consistent, emit_consistent. exact Hp.
Qed.

Lemma runEvents_consistent (evs : list ProcessEvent) :
  forall p,
    jobConsistent p ->
    jobConsistent (runEvents (JI := controllerJob sch) ext env evs p).
Proof.
  unfold runEvents. induction evs as [| ev rest IH]; intros p Hp; simpl.
  - exact Hp.
  - apply IH. apply handle_consistent. exact Hp.
Qed.

Lemma startServer_consistent (w : PassEnv) (conn : Connection)
    (bind : Bind) (p : Process Controller) :
  jobConsistent p ->
  jobConsistent (startServer (JI := controllerJob sch) env w conn bind p).
Proof.
  intros Hp. unfold startServer. destruct conn as [[|] | err].
  - assert (Hl : forall q, jobConsistent q ->
                           jobConsistent
                             (appListen (JI := controllerJob sch) env bind q)).
    { intros q Hq. destruct bind as [| err]; simpl;
        [| apply exit_consistent, emit_consistent; exact Hq].
      intros c Hjob. apply Hq. rewrite <- Hjob. symmetry.
      unfold listen. simpl.
      destruct (economicJob q); [| reflexivity].
      destruct (envIs (NODE_ENV env) "development"); reflexivity. }
    apply Hl. destruct (negb (envIs (NODE_ENV env) "test")); [| exact Hp].
    apply emit_consistent, emit_consistent, setJob_consistent.
    simpl. apply start_consistent, new_consistent.
  - apply exit_consistent, emit_consistent. exact Hp.
  - apply exit_consistent, emit_consistent. exact Hp.
Qed.

(** Whatever happens to the process, its controller stays consistent. *)
Lemma lifetime_consistent (w : PassEnv) (before after : list ProcessEvent)
    (conn : Connection) (bind : Bind) :
  jobConsistent
    (lifetime (JI := controllerJob sch) ext env w before conn bind after).
Proof.
  unfold lifetime. apply runEvents_consistent.
  assert (H0 : jobConsistent
                 (runEvents (JI := controllerJob sch) ext env before initial)).
  { apply runEvents_consistent. intros c Hc. discriminate Hc. }
  destruct (exitCode (runEvents ext env before initial)); [exact H0 |].
  apply startServer_consistent. exact H0.
Qed.

(** A pass-level error on a consistent, IDLE controller. *)
Lemma contained_when_consistent (w : PassEnv) (req : Request)
    (p : Process Controller) (c : Controller) (e : PassError)
    (writes : list SimulatedState) :
  exitCode p = None ->
  economicJob p = Some c ->
  consistent c ->
  state (status c) = IDLE ->
  executePass w = (PassFailed e, writes) ->
  contained e (fst (handle (JI := controllerJob sch) ext env p (CronTick w))) /\
  exists p',
    jobExecute (JI := controllerJob sch) w req p
    = (executionFailed (errorMessage (PassFailure e)), p') /\
    contained e p'.
Proof.
  intros Halive Hjob [Hfl Harm] Hidle Hpass.
  rewrite Hidle in Hfl, Harm.
  destruct (tryAdmit_idle (clockStart w) c Hidle)
    as (c1 & Hadm & Hrun & Hfl1 & Harm1 & _).
  assert (Hdone : contained e
            (setJob (Some (complete (PassFailed e) (clockEnd w) c1)) p)).
  { destruct (complete_failed e (clockEnd w) c1) as (Ho & Hlog & Hs & Ha & Hn).
    split; [destruct p; exact Halive |].
    eexists. split; [destruct p; reflexivity |].
    rewrite Harm1, Harm in Hs, Ha. rewrite Hfl1, Hfl in Hn. auto 6. }
  split.
  - unfold handle. rewrite Halive. simpl. unfold onCronTick. rewrite Hjob.
    simpl. unfold scheduledTick. rewrite Hadm, Hpass. simpl. exact Hdone.
  - eexists. split; [| exact Hdone].
    unfold jobExecute. rewrite Hjob. simpl. unfold executeManual.
    rewrite Hadm, Hpass. simpl. reflexivity.
Qed.

End ProcessWithController.

(** C9: at any point of the life of the process, a pass-level error (fetch
    failure or timeout) of a scheduled or of a manual pass ends neither the
    controller nor the process: the process has not exited, the snapshot
    records FAILURE, the journal holds the error and the controller is IDLE
    again with its trigger armed; the manual caller gets a 500 response. *)
Theorem pass_level_error_is_contained (sch : Schedule) (ext : Externals)
    (env : Env) (w0 : PassEnv) (before after : list ProcessEvent)
    (conn : Connection) (bind : Bind) (w : PassEnv) (req : Request)
    (c : Controller) (e : PassError) (writes : list SimulatedState) :
  let p :=
    lifetime (JI := controllerJob sch) ext env w0 before conn bind after in
  exitCode p = None ->
  economicJob p = Some c ->
  state (status c) = IDLE ->
  executePass w = (PassFailed e, writes) ->
  contained e (fst (handle (JI := controllerJob sch) ext env p (CronTick w))) /\
  exists p',
    jobExecute (JI := controllerJob sch) w req p
    = (executionFailed (errorMessage (PassFailure e)), p') /\
    contained e p'.
Proof.
  intros p Halive Hjob Hidle Hpass.
  apply (contained_when_consistent sch ext env w req p c e writes);
    auto.
  apply (lifetime_consistent sch ext env w0 before after conn bind).
  exact Hjob.
Qed.

Lemma pass_level_error_is_contained_witness :
  contained (RepositoryFetchError "connection refused")
    (fst (handle (JI := controllerJob Samples.everySixHours)
            Samples.transparent Samples.production
            (lifetime (JI := controllerJob Samples.everySixHours)
               Samples.transparent Samples.production Samples.fivePass
               [] (Connected true) Bound [ CronTick Samples.fivePass ])
            (CronTick Samples.brokenPass))).
Proof.
  exact (proj1 (pass_level_error_is_contained Samples.everySixHours
                  Samples.transparent Samples.production Samples.fivePass
                  [] [ CronTick Samples.fivePass ] (Connected true) Bound
                  Samples.brokenPass Samples.postExecute
                  _ _ [] eq_refl eq_refl eq_refl eq_refl)).
Defined.

(** * Further properties of [server.js] *)

Section MoreServerFacts.

Context {J W : Type} {JI : JobInterface J W}.

(** ** The request log *)

Lemma jobExecute_effects (w : W) (req : Request) (p : Process J) :
  effects (snd (jobExecute w req p)) = effects p /\
  exitCode (snd (jobExecute w req p)) = exitCode p /\
  listening (snd (jobExecute w req p)) = listening p.
Proof.
  unfold jobExecute. destruct (economicJob p) as [job |]; [| auto].
  destruct (job_executeManual w job) as [[result | message] job']; auto.
Qed.



(** ** Environment, routes and answers *)

Lemma envIs_true (v : option string) (lit : string) :
  envIs v lit = true <-> v = Some lit.
Proof.
  unfold envIs. destruct v as [s |].
  - rewrite String.eqb_eq. split; congruence.
  - split; discriminate.
Qed.

(** The manual-execution route is in the stack exactly in development. *)
Lemma execute_route_registered (env : Env) :
  In (Route POST executePath JobExecute) (app env)
  <-> NODE_ENV env = Some "development"%string.
Proof.
  rewrite <- envIs_true. unfold app.
  destruct (envIs (NODE_ENV env) "development"); simpl;
    intuition discriminate.
Qed.

(** X2: the health check labels the environment [development] when
    NODE_ENV is unset, empty or [development], but the manual-execution
    route is registered only when NODE_ENV is exactly [development]: a
    process started without NODE_ENV reports [development] and has no such
    route. *)
Theorem environment_label_and_manual_route (env : Env) (req : Request)
    (p : Process J) :
  (field "environment" (body (health env req p))
   = Some (JStr "development")
   <-> NODE_ENV env = None \/ NODE_ENV env = Some ""%string
       \/ NODE_ENV env = Some "development"%string) /\
  (In (Route POST executePath JobExecute) (app env)
   <-> NODE_ENV env = Some "development"%string) /\
  (NODE_ENV env = None \/ NODE_ENV env = Some ""%string ->
   field "environment" (body (health env req p)) = Some (JStr "development")
   /\ ~ In (Route POST executePath JobExecute) (app env)).
Proof.
  assert (Hlabel : field "environment" (body (health env req p))
                   = Some (JStr (envOr (NODE_ENV env) "development")))
    by reflexivity.
  split; [| split; [apply execute_route_registered |]].
  - rewrite Hlabel. unfold envOr.
    destruct (NODE_ENV env) as [[| c s] |]; split; intros H; auto.
    + inversion H. auto.
    + destruct H as [H | [H | H]]; try discriminate H.
      inversion H. reflexivity.
  - intros Hunset. rewrite Hlabel, execute_route_registered.
    destruct Hunset as [-> | ->]; split; (reflexivity || discriminate).
Qed.

(** X3: every answer of the handlers of [server.js] carries a boolean
    [success], which is true exactly when the status is 200; the routes
    answer 200, 500 or 503 and the catch-all 404. *)
Theorem success_flag_matches_status (env : Env) (w : W) (h : Handler)
    (req : Request) (p : Process J) :
  let r := fst (runHandler env w h req p) in
  (exists b, field "success" (body r) = Some (JBool b) /\
             (b = true <-> statusCode r = 200)) /\
  In (statusCode r) [200; 500; 503] /\
  field "success" (body (notFound req)) = Some (JBool false) /\
  statusCode (notFound req) = 404.
Proof.
  assert (Hyes : forall n v,
             n = 200 -> v = Some (JBool true) ->
             exists b, v = Some (JBool b) /\ (b = true <-> n = 200)).
  { intros n v -> ->. exists true. tauto. }
  assert (Hno : forall n v,
             n <> 200 -> v = Some (JBool false) ->
             exists b, v = Some (JBool b) /\ (b = true <-> n = 200)).
  { intros n v Hn ->. exists false. split; [reflexivity |].
    split; [discriminate | contradiction]. }
  cbv zeta. split; [| split; [| split; reflexivity]].
  - destruct h; simpl.
    + apply Hyes; reflexivity.
    + unfold jobStatus. destruct (economicJob p);
        [apply Hyes; reflexivity | apply Hno; [discriminate | reflexivity]].
    + unfold jobExecute. destruct (economicJob p) as [job |];
        [| apply Hno; [discriminate | reflexivity]].
      destruct (job_executeManual w job) as [[result | message] job'];
        [apply Hyes; reflexivity | apply Hno; [discriminate | reflexivity]].
  - destruct h; simpl.
    + auto.
    + unfold jobStatus. destruct (economicJob p); simpl; auto.
    + unfold jobExecute. destruct (economicJob p) as [job |]; simpl; auto.
      destruct (job_executeManual w job) as [[result | message] job'];
        simpl; auto.
Qed.

(** ** The end of the stack *)





(** X5: an error raised by a third-party middleware or by an API router,
    wherever it stands in the stack, is answered by the error middleware. *)
Theorem raised_errors_reach_error_middleware (ext : Externals) (env : Env)
    (err : string) (req : Request) (n : nat) :
  match nth_error (app env) n with
  | Some (Global _) | Some (Mount _ _) =>
      dispatchError ext err req (skipn (S n) (app env))
      = errorMiddleware ext err req
  | _ => True
  end.
Proof.
  unfold app. destruct (envIs (NODE_ENV env) "development"); simpl;
    do 17 (destruct n as [| n]; [simpl; try reflexivity; exact I |]);
    destruct n; exact I.
Qed.

(** ** The life of the process *)

(** Serving a request neither exits the process nor stops the server, and
    writes at most request-log lines. *)
Lemma dispatch_frame (ext : Externals) (env : Env) (w : W) (req : Request)
    (layers : list Layer) :
  forall p,
    exitCode (snd (dispatch ext env w req layers p)) = exitCode p /\
    listening (snd (dispatch ext env w req layers p)) = listening p /\
    exists extra,
      effects (snd (dispatch ext env w req layers p)) = effects p ++ extra /\
      forallb isConsoleLog extra = true.
Proof.
  assert (Hsame : forall p : Process J,
             exitCode p = exitCode p /\ listening p = listening p /\
             exists extra, effects p = effects p ++ extra /\
                           forallb isConsoleLog extra = true).
  { intros p. repeat split. exists []. rewrite app_nil_r. auto. }
  induction layers as [| layer rest IH]; intros p; simpl; [apply Hsame |].
  destruct layer as [m | | m pth h | pre r | |]; simpl.
  - destruct (thirdParty ext m req); simpl; auto.
  - destruct (IH (emit (ConsoleLog (requestLine req)) p))
      as (He & Hl & extra & Hx & Hlog).
    split; [exact He |]. split; [exact Hl |].
    exists (ConsoleLog (requestLine req) :: extra).
    rewrite Hx. simpl. rewrite <- app_assoc. auto.
  - destruct (methodMatches m (method req) && routeMatches pth (path req));
      [| auto].
    destruct h; simpl; auto.
    destruct (jobExecute_effects w req p) as (Hx & He & Hl).
    rewrite Hx, He, Hl. apply Hsame.
  - destruct (mountMatches pre (path req)); [| auto].
    destruct (apiRouter ext r req); simpl; auto.
  - auto.
  - apply Hsame.
Qed.

Lemma count_logs (f : Effect -> bool) (p p' : Process J)
    (extra : list Effect) :
  (forall line, f (ConsoleLog line) = false) ->
  effects p' = effects p ++ extra ->
  forallb isConsoleLog extra = true ->
  count f p' = count f p.
Proof.
  intros Hf Hx Hlog. unfold count. rewrite Hx, filter_app, length_app.
  assert (Hnone : filter f extra = []).
  { clear Hx. induction extra as [| e rest IH]; [reflexivity |].
    simpl in Hlog. apply andb_prop in Hlog. destruct Hlog as [He Hrest].
    destruct e; try discriminate He. simpl. rewrite Hf. auto. }
  rewrite Hnone. simpl. lia.
Qed.

(** What one event does to a running process. *)
Lemma handle_running (ext : Externals) (env : Env) (p : Process J)
    (ev : ProcessEvent) :
  exitCode p = None ->
  let p' := fst (handle ext env p ev) in
  listening p' = listening p /\
  match ev with
  | Http _ _ =>
      exitCode p' = None /\ count isJobStop p' = count isJobStop p
  | CronTick _ =>
      (exitCode p' = None \/ exitCode p' = Some 1%Z) /\
      count isJobStop p' = count isJobStop p
  | Signalled _ =>
      exitCode p' = Some 0%Z /\
      match economicJob p with
      | Some _ =>
          economicJob p' <> None /\
          count isJobStop p' = S (count isJobStop p)
      | None =>
          economicJob p' = None /\ count isJobStop p' = count isJobStop p
      end
  | UncaughtException _ | UnhandledRejection _ _ =>
      exitCode p' = Some 1%Z /\ count isJobStop p' = count isJobStop p
  end.
Proof.
  intros Halive. unfold handle. rewrite Halive.
  assert (Hcount : forall e (q : Process J),
             isJobStop e = false ->
             count isJobStop (emit e q) = count isJobStop q).
  { intros e q He. unfold count, emit. simpl.
    rewrite filter_app, length_app. simpl. rewrite He. simpl. lia. }
  assert (Hexit : forall code (q : Process J),
             count isJobStop (exit code q) = count isJobStop q).
  { intros code q. unfold count, exit. simpl.
    rewrite filter_app, length_app. simpl. lia. }
  destruct ev as [w req | w | s | err | promise why]; simpl.
  - destruct (listening p) eqn:Hl; [| simpl; auto].
    unfold serve.
    destruct (dispatch_frame ext env w req (app env) p)
      as (He & Hlis & extra & Hx & Hlog).
    destruct (dispatch ext env w req (app env) p) as [r p']. simpl in *.
    rewrite Hlis, He. repeat split; auto.
    apply (count_logs isJobStop p p' extra); auto.
  - unfold onCronTick. destruct (economicJob p) as [job |]; [| auto].
    destruct (job_onTick w job) as [job' [err |]]; simpl; auto.
    split; [reflexivity |]. split; [right; reflexivity |].
    unfold onUnhandledRejection. rewrite Hexit, Hcount; reflexivity.
  - unfold onSignal. simpl. split; [destruct (economicJob p); reflexivity |].
    split; [destruct (economicJob p); reflexivity |].
    destruct (economicJob p) as [job |] eqn:Hjob; simpl.
    + split; [discriminate |].
      rewrite Hexit. unfold count. simpl.
      rewrite !filter_app, !length_app. simpl. lia.
    + split; [exact Hjob |]. rewrite Hexit, Hcount; reflexivity.
  - unfold onUncaughtException. simpl. repeat split.
    rewrite Hexit, Hcount; reflexivity.
  - unfold onUnhandledRejection. simpl. repeat split.
    rewrite Hexit, Hcount; reflexivity.
Qed.

Lemma handle_exited (ext : Externals) (env : Env) (p : Process J)
    (ev : ProcessEvent) (code : Z) :
  exitCode p = Some code -> handle ext env p ev = (p, None).
Proof. intros Hexit. unfold handle. rewrite Hexit. reflexivity. Qed.

(** What [startServer()] does to a running process. *)
Lemma startServer_running (env : Env) (w : W) (conn : Connection)
    (bind : Bind) (p : Process J) :
  let p' := startServer env w conn bind p in
  count isJobStop p' = count isJobStop p /\
  match conn, bind with
  | Connected true, Bound =>
      exitCode p' = exitCode p /\ listening p' = true
  | Connected true, BindFailed _ =>
      exitCode p' = Some 1%Z /\ listening p' = listening p
  | _, _ =>
      exitCode p' = Some 1%Z /\ listening p' = listening p /\
      economicJob p' = economicJob p
  end.
Proof.
  unfold startServer, appListen, listen, onUncaughtException.
  destruct conn as [[|] | err]; destruct bind as [| failure]; simpl;
    repeat match goal with
           | |- context [if ?b then _ else _] => destruct b; simpl
           | |- context [match economicJob ?q with _ => _ end] =>
               destruct (economicJob q); simpl
           end;
    unfold count; simpl; rewrite ?filter_app, ?length_app; simpl;
    (split; [lia | auto]).
Qed.

(** A property that holds of the fresh process and that events and the
    resumption of [startServer()] keep holds all along. *)
Lemma lifetime_invariant (P : Process J -> Prop) (ext : Externals)
    (env : Env) (w : W) :
  P initial ->
  (forall p ev, P p -> P (fst (handle ext env p ev))) ->
  (forall conn bind p,
     exitCode p = None -> P p -> P (startServer env w conn bind p)) ->
  forall before conn bind after,
    P (lifetime ext env w before conn bind after).
Proof.
  intros Hinit Hstep Hboot before conn bind after.
  assert (Hrun : forall evs p, P p -> P (runEvents ext env evs p)).
  { unfold runEvents. induction evs as [| ev rest IH]; intros p Hp; simpl;
      auto. }
  unfold lifetime. apply Hrun.
  destruct (exitCode (runEvents ext env before initial)) eqn:Hexit; auto.
Qed.

Lemma handle_listening (ext : Externals) (env : Env) (p : Process J)
    (ev : ProcessEvent) :
  listening (fst (handle ext env p ev)) = listening p.
Proof.
  destruct (exitCode p) as [code |] eqn:Hexit.
  - rewrite (handle_exited ext env p ev code Hexit). reflexivity.
  - apply (handle_running ext env p ev Hexit).
Qed.

Lemma runEvents_listening (ext : Externals) (env : Env)
    (evs : list ProcessEvent) :
  forall p, listening (runEvents ext env evs p) = listening p.
Proof.
  unfold runEvents. induction evs as [| ev rest IH]; intros p; simpl;
    [reflexivity |].
  rewrite IH. apply handle_listening.
Qed.

(** X6: the server answers a request only when the database connection
    test has succeeded, the port was bound, the process was still running
    when the test settled, and the process has not exited since: nothing is
    answered while the test is pending, after a failed test, when the port
    could not be bound, or after an exit. *)
Theorem requests_answered_only_after_boot (ext : Externals) (env : Env)
    (w : W) (before after : list ProcessEvent) (conn : Connection)
    (bind : Bind) (w' : W) (req : Request) :
  let p := lifetime ext env w before conn bind after in
  snd (handle ext env p (Http w' req)) <> None ->
  conn = Connected true /\ bind = Bound /\
  exitCode (runEvents ext env before initial) = None /\
  exitCode p = None.
Proof.
  intros p.
  assert (Hlis : listening p = true ->
                 conn = Connected true /\ bind = Bound /\
                 exitCode (runEvents ext env before initial) = None).
  { subst p. unfold lifetime. rewrite runEvents_listening.
    pose proof (runEvents_listening ext env before initial) as H0.
    simpl in H0.
    destruct (exitCode (runEvents ext env before initial)) eqn:Hexit.
    - rewrite H0. discriminate.
    - pose proof (startServer_running env w conn bind
                    (runEvents ext env before initial)) as (_ & Hboot).
      destruct conn as [[|] | err]; destruct bind as [| failure];
        try (destruct Hboot as (_ & -> & _); rewrite H0; discriminate);
        try (destruct Hboot as (_ & ->); rewrite H0; discriminate).
      auto. }
  unfold handle. destruct (exitCode p) as [code |] eqn:Hexit; simpl.
  - intros H; contradiction.
  - destruct (listening p) eqn:Hl; [| simpl; intros H; contradiction].
    intros _. destruct (Hlis eq_refl) as (Hc & Hb & Ha). auto.
Qed.

Lemma runEvents_exited (ext : Externals) (env : Env)
    (evs : list ProcessEvent) :
  forall (p : Process J) (code : Z),
    exitCode p = Some code -> runEvents ext env evs p = p.
Proof.
  unfold runEvents.
  induction evs as [| ev rest IH]; intros p code Hexit; simpl;
    [reflexivity |].
  rewrite (handle_exited ext env p ev code Hexit). simpl.
  apply (IH p code Hexit).
Qed.

Lemma runEvents_exit_zero (ext : Externals) (env : Env)
    (evs : list ProcessEvent) :
  forall p : Process J,
    exitCode (runEvents ext env evs p) = Some 0%Z ->
    exitCode p = Some 0%Z \/ exists s, In (Signalled s) evs.
Proof.
  induction evs as [| ev rest IH]; intros p Hzero; [left; exact Hzero |].
  destruct (exitCode p) as [code |] eqn:Hexit.
  - rewrite (runEvents_exited ext env (ev :: rest) p code Hexit) in Hzero.
    left. congruence.
  - change (runEvents ext env (ev :: rest) p)
      with (runEvents ext env rest (fst (handle ext env p ev))) in Hzero.
    destruct (IH _ Hzero) as [Hnow | [s Hs]].
    + right. pose proof (handle_running ext env p ev Hexit) as (_ & Hev).
      destruct ev as [w req | w | s | err | promise why]; simpl in Hev.
      * destruct Hev as [Hev _]. congruence.
      * destruct Hev as [[Hev | Hev] _]; congruence.
      * exists s. left. reflexivity.
      * destruct Hev as [Hev _]. congruence.
      * destruct Hev as [Hev _]. congruence.
    + right. exists s. right. exact Hs.
Qed.

Lemma runEvents_signalled (ext : Externals) (env : Env)
    (evs : list ProcessEvent) (s : Signal) :
  forall p : Process J,
    In (Signalled s) evs -> exitCode (runEvents ext env evs p) <> None.
Proof.
  induction evs as [| ev rest IH]; intros p Hin; [destruct Hin |].
  destruct (exitCode p) as [code |] eqn:Hexit.
  - rewrite (runEvents_exited ext env (ev :: rest) p code Hexit).
    congruence.
  - change (runEvents ext env (ev :: rest) p)
      with (runEvents ext env rest (fst (handle ext env p ev))).
    destruct Hin as [-> | Hin]; [| apply IH; exact Hin].
    pose proof (handle_running ext env p (Signalled s) Hexit)
      as (_ & Hzero & _).
    rewrite (runEvents_exited ext env rest _ 0%Z Hzero). congruence.
Qed.

(** X7: the process exits with code 0 or 1 only; it exits with code 0 only
    on SIGTERM or SIGINT, and once such a signal has come it has exited. *)
Theorem exit_code_tells_shutdown_from_crash (ext : Externals) (env : Env)
    (w : W) (before after : list ProcessEvent) (conn : Connection)
    (bind : Bind) :
  let p := lifetime ext env w before conn bind after in
  (exitCode p = None \/ exitCode p = Some 0%Z \/ exitCode p = Some 1%Z) /\
  (exitCode p = Some 0%Z -> exists s, In (Signalled s) (before ++ after)) /\
  ((exists s, In (Signalled s) (before ++ after)) -> exitCode p <> None).
Proof.
  intros p. split; [| split].
  - subst p.
    apply (lifetime_invariant
             (fun q => exitCode q = None \/ exitCode q = Some 0%Z
                       \/ exitCode q = Some 1%Z)); auto.
    + intros q ev Hq. destruct (exitCode q) as [code |] eqn:Hexit.
      * rewrite (handle_exited ext env q ev code Hexit). simpl.
        rewrite Hexit. exact Hq.
      * pose proof (handle_running ext env q ev Hexit) as (_ & Hev).
        destruct ev; simpl in Hev; intuition.
    + intros c b q Halive _.
      pose proof (startServer_running env w c b q) as (_ & Hboot).
      destruct c as [[|] | err]; destruct b; intuition congruence.
  - intros Hzero. subst p. unfold lifetime in Hzero.
    apply runEvents_exit_zero in Hzero.
    destruct Hzero as [Hzero | [s Hs]];
      [| exists s; apply in_or_app; right; exact Hs].
    destruct (exitCode (runEvents ext env before initial)) eqn:Hexit.
    + simpl in Hzero. apply runEvents_exit_zero in Hzero.
      destruct Hzero as [Hzero | [s Hs]]; [discriminate Hzero |].
      exists s. apply in_or_app. left. exact Hs.
    + pose proof (startServer_running env w conn bind
                    (runEvents ext env before initial)) as (_ & Hboot).
      destruct conn as [[|] | err]; destruct bind; intuition congruence.
  - intros [s Hs]. subst p. unfold lifetime.
    apply in_app_or in Hs. destruct Hs as [Hs | Hs].
    + pose proof (runEvents_signalled ext env before s initial Hs) as Hdead.
      destruct (exitCode (runEvents ext env before initial)) as [code |]
        eqn:Hexit; [| contradiction].
      rewrite (runEvents_exited ext env after _ code Hexit). congruence.
    + apply (runEvents_signalled ext env after s). exact Hs.
Qed.

(** X8: [stop()] is called at most once, and exactly when the process shuts
    down on a signal with a job constructed; an exit with code 1 (failed
    boot, uncaught exception, unhandled rejection) never calls [stop()]. *)
Theorem stop_only_on_graceful_shutdown (ext : Externals) (env : Env) (w : W)
    (before after : list ProcessEvent) (conn : Connection) (bind : Bind) :
  let p := lifetime ext env w before conn bind after in
  count isJobStop p <= 1 /\
  (count isJobStop p = 1
   <-> exitCode p = Some 0%Z /\ economicJob p <> None) /\
  (exitCode p = Some 1%Z -> count isJobStop p = 0).
Proof.
  intros p.
  assert (Hinv : (count isJobStop p = 0 /\
                  (exitCode p = Some 0%Z -> economicJob p = None)) \/
                 (count isJobStop p = 1 /\ exitCode p = Some 0%Z /\
                  economicJob p <> None)).
  { subst p.
    apply (lifetime_invariant
             (fun q => (count isJobStop q = 0 /\
                        (exitCode q = Some 0%Z -> economicJob q = None)) \/
                       (count isJobStop q = 1 /\ exitCode q = Some 0%Z /\
                        economicJob q <> None))).
    - left. split; [reflexivity | discriminate].
    - intros q ev Hq. destruct (exitCode q) as [code |] eqn:Hexit.
      + rewrite (handle_exited ext env q ev code Hexit). simpl.
        rewrite Hexit. exact Hq.
      + destruct Hq as [[Hcount _] | (_ & Hzero & _)]; [| discriminate Hzero].
        pose proof (handle_running ext env q ev Hexit) as (_ & Hev).
        destruct ev as [w0 req | w0 | s | err | promise why]; simpl in Hev.
        * destruct Hev as [He ->]. left. split; [exact Hcount |].
          rewrite He. discriminate.
        * destruct Hev as [He ->]. left. split; [exact Hcount |].
          destruct He as [-> | ->]; discriminate.
        * destruct Hev as [He Hjob].
          destruct (economicJob q); destruct Hjob as [Hj ->].
          -- right. rewrite Hcount. auto.
          -- left. auto.
        * destruct Hev as [He ->]. left. split; [exact Hcount |].
          rewrite He. discriminate.
        * destruct Hev as [He ->]. left. split; [exact Hcount |].
          rewrite He. discriminate.
    - intros c b q Halive Hq.
      destruct Hq as [[Hcount _] | (_ & Hzero & _)]; [| congruence].
      pose proof (startServer_running env w c b q) as (-> & Hboot).
      left. split; [exact Hcount |].
      destruct c as [[|] | err]; destruct b; intuition congruence. }
  destruct Hinv as [[Hcount Hjob] | (Hcount & Hzero & Hjob)]; rewrite Hcount.
  - split; [lia |]. split; [| reflexivity].
    split; [discriminate |]. intros [Hz Hj]. contradiction (Hj (Hjob Hz)).
  - split; [lia |]. split; [tauto |]. rewrite Hzero. discriminate.
Qed.

(** X9: when the server comes up, the console line that advertises the
    manual execution route is printed exactly when that route is
    registered. *)
Theorem manual_hint_matches_route (env : Env) (w : W) :
  In (ConsoleLog (manualHint env))
     (effects (startServer env w (Connected true) Bound initial))
  <-> In (Route POST executePath JobExecute) (app env).
Proof.
  rewrite execute_route_registered, <- envIs_true.
  unfold startServer, appListen, listen, manualHint.
  destruct (NODE_ENV env) as [mode |]; simpl.
  - destruct (String.eqb mode "development") eqn:Hdev.
    + apply String.eqb_eq in Hdev. subst mode. simpl.
      split; [reflexivity |]. intros _. do 7 right. left. reflexivity.
    + destruct (String.eqb mode "test"); simpl;
        (split; [| discriminate]);
        intros H; repeat (destruct H as [H | H]; [discriminate H |]);
        destruct H.
  - split; [| discriminate].
    intros H; repeat (destruct H as [H | H]; [discriminate H |]);
      destruct H.
Qed.

(** X10: over the whole life of a process whose connection test succeeded,
    the status route answers 503 exactly under the test configuration and
    200 otherwise: the job is constructed unless NODE_ENV is [test], and
    once constructed it is never dropped. *)
Theorem status_route_follows_configuration (ext : Externals) (env : Env)
    (w : W) (before after : list ProcessEvent) (bind : Bind)
    (req : Request) :
  exitCode (runEvents ext env before initial) = None ->
  let p := lifetime ext env w before (Connected true) bind after in
  (statusCode (jobStatus req p) = 503 <-> NODE_ENV env = Some "test"%string) /\
  (statusCode (jobStatus req p) = 200 <-> NODE_ENV env <> Some "test"%string) /\
  (economicJob p = None <-> NODE_ENV env = Some "test"%string).
Proof.
  intros Halive p.
  assert (Hjob : economicJob p = None <-> NODE_ENV env = Some "test"%string).
  { subst p. unfold lifetime. rewrite Halive.
    destruct (events_same ext env before initial) as (_ & _ & Bj).
    pose proof (startServer_calls env w (Connected true) bind
                  (runEvents ext env before initial)) as Hboot.
    destruct (events_same ext env after
                (startServer env w (Connected true) bind
                   (runEvents ext env before initial))) as (_ & _ & Aj).
    cbv beta iota zeta in Hboot. rewrite <- envIs_true. revert Hboot.
    destruct (envIs (NODE_ENV env) "test").
    - intros (_ & _ & Hj). split; [reflexivity |]. intros _.
      apply Aj, Hj, Bj. reflexivity.
    - intros (Hj & _). split; [| discriminate].
      intros Hnone. contradiction (Hj (proj1 Aj Hnone)). }
  split; [| split; [| exact Hjob]].
  - rewrite <- Hjob. unfold jobStatus.
    destruct (economicJob p); simpl; split; congruence.
  - rewrite <- Hjob. unfold jobStatus.
    destruct (economicJob p); simpl; split; congruence.
Qed.

(** ** Which router sees which request *)

Lemma prefix_refl (a : string) : String.prefix a a = true.
Proof.
  induction a as [| c a IH]; simpl; [reflexivity |].
  destruct (Ascii.ascii_dec c c); [exact IH | contradiction].
Qed.

Lemma prefix_append_l (a b : string) :
  forall s, String.prefix (a ++ b)%string s = true -> String.prefix a s = true.
Proof.
  induction a as [| c a IH]; intros s H; [destruct s; reflexivity |].
  destruct s as [| d s]; simpl in *; [discriminate H |].
  destruct (Ascii.ascii_dec c d); [apply IH; exact H | discriminate H].
Qed.

(** Two prefixes of one string are prefixes of one another. *)
Lemma prefix_comparable (a : string) :
  forall b s,
    String.prefix a s = true -> String.prefix b s = true ->
    String.prefix a b = true \/ String.prefix b a = true.
Proof.
  induction a as [| c a IH]; intros b s Ha Hb.
  - left. destruct b; reflexivity.
  - destruct b as [| d b]; [right; reflexivity |].
    destruct s as [| e s]; simpl in *; [discriminate Ha |].
    destruct (Ascii.ascii_dec c e) as [-> |]; [| discriminate Ha].
    destruct (Ascii.ascii_dec d e) as [-> |]; [| discriminate Hb].
    destruct (Ascii.ascii_dec e e); [| contradiction].
    apply (IH b s Ha Hb).
Qed.

Lemma mounted_prefix (pre s : string) :
  mountMatches pre s = true -> String.prefix (lower pre) (lower s) = true.
Proof.
  unfold mountMatches. intros H. apply orb_prop in H.
  destruct H as [H | H].
  - apply String.eqb_eq in H. rewrite <- H. apply prefix_refl.
  - apply (prefix_append_l (lower pre) "/"). exact H.
Qed.

Lemma dispatchError_same (ext ext' : Externals) (err : string)
    (req : Request) (layers : list Layer) :
  (forall e, errorMiddleware ext e req = errorMiddleware ext' e req) ->
  dispatchError ext err req layers = dispatchError ext' err req layers.
Proof.
  intros Herr. induction layers as [| layer rest IH]; [reflexivity |].
  destruct layer; simpl; auto.
Qed.

(** X11: each request is offered to at most one API router, the one under
    whose prefix its path lies (letter case apart), and the paths that match
    the three routes of [server.js] lie under none; the answer does not
    depend on what the other routers would do. *)
Theorem api_routers_are_isolated :
  (forall r r' s,
     mountMatches (mountOf r) s = true ->
     mountMatches (mountOf r') s = true -> r = r') /\
  (forall r pattern s,
     In pattern ["/health"%string; statusPath; executePath] ->
     routeMatches pattern s = true ->
     mountMatches (mountOf r) s = false) /\
  (forall (ext ext' : Externals) (env : Env) (w : W) (req : Request)
          (p : Process J),
     (forall m, thirdParty ext m req = thirdParty ext' m req) ->
     (forall e, errorMiddleware ext e req = errorMiddleware ext' e req) ->
     (forall r, mountMatches (mountOf r) (path req) = true ->
                apiRouter ext r req = apiRouter ext' r req) ->
     serve ext env w req p = serve ext' env w req p).
Proof.
  split; [| split].
  - intros r r' s Hr Hr'.
    apply mounted_prefix in Hr. apply mounted_prefix in Hr'.
    destruct (prefix_comparable _ _ _ Hr Hr') as [H | H];
      destruct r, r'; try reflexivity; vm_compute in H; discriminate H.
  - intros r pattern s Hin Hs. apply routeMatches_cases in Hs.
    unfold mountMatches. simpl in Hin.
    destruct Hin as [<- | [<- | [<- | []]]];
      destruct Hs as [-> | ->]; destruct r; reflexivity.
  - intros ext ext' env w req p Hthird Herr Hrouter. unfold serve.
    assert (Hmounts : Forall (fun layer => match layer with
                                           | Mount pre r => pre = mountOf r
                                           | _ => True
                                           end) (app env)).
    { unfold app. destruct (envIs (NODE_ENV env) "development");
        repeat constructor. }
    revert p. induction Hmounts as [| layer rest Hlayer _ IH]; intros p;
      simpl; [reflexivity |].
    destruct layer as [m | | m pth h | pre r | |]; simpl; auto.
    + rewrite <- Hthird. destruct (thirdParty ext m req); auto.
      rewrite (dispatchError_same ext ext' err req rest Herr). reflexivity.
    + destruct (methodMatches m (method req) && routeMatches pth (path req));
        auto.
    + subst pre. destruct (mountMatches (mountOf r) (path req)) eqn:Hm; auto.
      rewrite <- (Hrouter r Hm). destruct (apiRouter ext r req); auto.
      rewrite (dispatchError_same ext ext' err req rest Herr). reflexivity.
Qed.

(** ** Who may touch the job *)

Lemma dispatch_job_changes (ext : Externals) (env : Env) (w : W)
    (req : Request) (layers : list Layer) :
  forall p,
    economicJob (snd (dispatch ext env w req layers p)) = economicJob p \/
    exists m pth,
      In (Route m pth JobExecute) layers /\
      methodMatches m (method req) = true /\
      routeMatches pth (path req) = true.
Proof.
  induction layers as [| layer rest IH]; intros p; simpl; [auto |].
  assert (Hrest : forall q,
             economicJob q = economicJob p ->
             economicJob (snd (dispatch ext env w req rest q)) = economicJob p \/
             exists m pth,
               In (Route m pth JobExecute) (layer :: rest) /\
               methodMatches m (method req) = true /\
               routeMatches pth (path req) = true).
  { intros q Hq. destruct (IH q) as [H | (m & pth & Hin & Hm)].
    - left. congruence.
    - right. exists m, pth. split; [right; exact Hin | exact Hm]. }
  destruct layer as [m | | m pth h | pre r | |]; simpl; auto.
  - destruct (thirdParty ext m req); simpl; auto.
  - destruct (methodMatches m (method req)) eqn:Hm; simpl; auto.
    destruct (routeMatches pth (path req)) eqn:Hpth; auto.
    destruct h; simpl; auto.
    right. exists m, pth. split; [left; reflexivity | auto].
  - destruct (mountMatches pre (path req)); auto.
    destruct (apiRouter ext r req); simpl; auto.
Qed.

(** X12: no request other than a POST that matches the manual-execution
    route, in development, changes the job held by the process. *)
Theorem only_manual_route_touches_job (ext : Externals) (env : Env) (w : W)
    (req : Request) (p : Process J) :
  economicJob (snd (serve ext env w req p)) <> economicJob p ->
  NODE_ENV env = Some "development"%string /\
  method req = POST /\ routeMatches executePath (path req) = true.
Proof.
  intros Hchanged. unfold serve in Hchanged.
  destruct (dispatch_job_changes ext env w req (app env) p)
    as [Hsame | (m & pth & Hin & Hm & Hpth)]; [contradiction |].
  unfold app in Hin.
  destruct (envIs (NODE_ENV env) "development") eqn:Hdev; simpl in Hin.
  - apply envIs_true in Hdev.
    repeat (destruct Hin as [Hin | Hin]; [try discriminate Hin |]);
      [| destruct Hin].
    inversion Hin; subst m pth. split; [exact Hdev |].
    split; [| exact Hpth].
    destruct (method req); (reflexivity || discriminate Hm).
  - repeat (destruct Hin as [Hin | Hin]; [discriminate Hin |]).
    destruct Hin.
Qed.

End MoreServerFacts.

(** ** The further properties on sample inputs *)


Lemma environment_label_and_manual_route_witness :
  field "environment"
    (body (health (JI := controllerJob Samples.everySixHours)
             (mkEnv None None) Samples.postExecute
             (mkProcess None [] true None)))
  = Some (JStr "development") /\
  ~ In (Route POST executePath JobExecute) (app (mkEnv None None)).
Proof.
  apply (environment_label_and_manual_route
           (JI := controllerJob Samples.everySixHours)).
  left. reflexivity.
Defined.

Lemma exit_code_tells_shutdown_from_crash_witness :
  exitCode (lifetime (JI := controllerJob Samples.everySixHours)
              Samples.transparent Samples.production Samples.fivePass
              [] (Connected true) Bound
              [ CronTick Samples.brokenPass; Signalled SIGTERM ])
  <> None.
Proof.
  apply (exit_code_tells_shutdown_from_crash
           (JI := controllerJob Samples.everySixHours)).
  exists SIGTERM. simpl. auto.
Defined.

Lemma stop_only_on_graceful_shutdown_witness :
  count isJobStop
    (lifetime (JI := controllerJob Samples.everySixHours)
       Samples.transparent Samples.production Samples.fivePass
       [] (Connected true) Bound
       [ UncaughtException "boom"; Signalled SIGINT ])
  = 0.
Proof.
  apply (stop_only_on_graceful_shutdown
           (JI := controllerJob Samples.everySixHours)).
  reflexivity.
Defined.

Lemma status_route_follows_configuration_witness :
  statusCode
    (jobStatus (JI := controllerJob Samples.everySixHours)
       Samples.postExecute
       (lifetime (JI := controllerJob Samples.everySixHours)
          Samples.transparent Samples.testing Samples.fivePass
          [ CronTick Samples.fivePass ] (Connected true) Bound
          [ Http Samples.fivePass Samples.postExecute ]))
  = 503.
Proof.
  apply (status_route_follows_configuration
           (JI := controllerJob Samples.everySixHours)
           Samples.transparent Samples.testing Samples.fivePass
           [ CronTick Samples.fivePass ]
           [ Http Samples.fivePass Samples.postExecute ] Bound
           Samples.postExecute eq_refl).
  reflexivity.
Defined.

Lemma only_manual_route_touches_job_witness :
  NODE_ENV Samples.development = Some "development"%string /\
  method Samples.postExecute = POST /\
  routeMatches executePath (path Samples.postExecute) = true.
Proof.
  apply (only_manual_route_touches_job
           (JI := controllerJob Samples.everySixHours)
           Samples.transparent Samples.development Samples.fivePass
           Samples.postExecute
           (mkProcess (Some Samples.idleController) [] true None)).
  discriminate.
Defined.

Lemma requests_answered_only_after_boot_witness :
  exitCode
    (lifetime (JI := controllerJob Samples.everySixHours)
       Samples.transparent Samples.production Samples.fivePass
       [] (Connected true) Bound [ CronTick Samples.fivePass ])
  = None.
Proof.
  apply (requests_answered_only_after_boot
           (JI := controllerJob Samples.everySixHours)
           Samples.transparent Samples.production Samples.fivePass
           [] [ CronTick Samples.fivePass ] (Connected true) Bound
           Samples.fivePass Samples.postExecute).
  discriminate.
Defined.
